(** * Chat message reconciliation and transport session

    A shallow embedding of the chat widget of the course platform:
    - the [Chat] component (reconciler [allMessages] and the send, edit and
      delete handlers), and
    - the [WebSocketService] transport session (connect, subscribe,
      automatic reconnection, disconnect).

    JavaScript strings are sequences of UTF-16 code units, sets are finite
    sets, timestamps are milliseconds since the epoch. *)

From Stdlib Require Import ZArith List String Ascii Lia Permutation Sorted.
From Stdlib Require Import DecimalString.
From stdpp Require Import base decidable countable list gmap sets.
Import ListNotations.

Local Open Scope Z_scope.

(** ** JavaScript strings and numbers *)

Module Js.

(** The Number nearest to an integer: the integers up to 2^53 in magnitude
    are Numbers; beyond, the value is rounded to 53 significant bits, ties
    to even.  An operation on Numbers with an integer result gives this
    rounding of the exact result. *)
Definition toDouble (v : Z) : Z :=
  let a := Z.abs v in
  let e := Z.log2 a - 52 in
  if e <=? 0 then v
  else
    let q := a / 2 ^ e in
    let r := a mod 2 ^ e in
    let half := 2 ^ (e - 1) in
    let q' :=
      if r <? half then q
      else if half <? r then q + 1
      else if Z.even q then q else q + 1 in
    Z.sgn v * (q' * 2 ^ e).

(** A string value: its UTF-16 code units. *)
Definition jsstring := list N.

(** An ASCII literal as a string value. *)
Definition lit (s : string) : jsstring :=
  List.map N_of_ascii (list_ascii_of_string s).

(** [!s] on a string: only the empty string is falsy. *)
Definition truthy (s : jsstring) : bool :=
  match s with [] => false | _ :: _ => true end.

(** The code units stripped by [String.prototype.trim]: WhiteSpace
    (TAB, VT, FF, ZWNBSP and the Space_Separator category) and
    LineTerminator (LF, CR, LS, PS). *)
Definition isWhiteSpace (c : N) : bool :=
  ((9 <=? c) && (c <=? 13) || (c =? 32) || (c =? 160) || (c =? 5760)
   || (8192 <=? c) && (c <=? 8202) || (c =? 8232) || (c =? 8233)
   || (c =? 8239) || (c =? 8287) || (c =? 12288) || (c =? 65279))%N.

Fixpoint trimStart (s : jsstring) : jsstring :=
  match s with
  | c :: s' => if isWhiteSpace c then trimStart s' else s
  | [] => []
  end.

Definition trimEnd (s : jsstring) : jsstring := rev (trimStart (rev s)).

Definition trim (s : jsstring) : jsstring := trimEnd (trimStart s).

(** Empty, or nothing but white space. *)
Definition blank (s : jsstring) : Prop :=
  Forall (fun c => isWhiteSpace c = true) s.

End Js.

Export Js.

(** ** The Chat component *)

Module Chat.

(** *** Messages *)

Inductive MessageStatus := PENDING | SUCCESS | ERROR.

(** [ChatMessage], with the fields the component reads and writes.
    [createdAt] is what [new Date(m.createdAt).getTime()] gives, which is
    how every use of it reads it: the instant the timestamp denotes, in
    milliseconds since the epoch, or [None] (NaN) when the string is no
    date. *)
Record ChatMessage := {
  id : jsstring;
  tempId : option jsstring;
  courseId : jsstring;
  content : jsstring;
  type : jsstring;
  senderId : jsstring;
  senderName : jsstring;
  senderThumbnailUrl : option jsstring;
  senderRole : jsstring;
  createdAt : option Z;
  status : option MessageStatus
}.

Definition getTime (m : ChatMessage) : option Z := createdAt m.

(** Arithmetic on time values and NaN. *)
Definition minus (a b : option Z) : option Z :=
  match a, b with
  | Some x, Some y => Some (toDouble (x - y))
  | _, _ => None
  end.

(** [Math.abs] *)
Definition Math_abs (a : option Z) : option Z :=
  match a with
  | Some x => Some (Z.abs x)
  | None => None
  end.

(** [a < k]: false on NaN. *)
Definition lessThan (a : option Z) (k : Z) : bool :=
  match a with
  | Some x => x <? k
  | None => false
  end.

(** What the sort makes of the value of the comparator: NaN counts as
    [+0]. *)
Definition SortCompare (v : option Z) : Z :=
  match v with
  | Some x => x
  | None => 0
  end.

Definition status_eqb (s : option MessageStatus) (t : MessageStatus) : bool :=
  match s, t with
  | Some PENDING, PENDING | Some SUCCESS, SUCCESS | Some ERROR, ERROR => true
  | _, _ => false
  end.

(** *** [Array.prototype.sort]

    The sort is stable and orders by the comparator ([a] before [b] when
    [compareFn a b < 0]); with a consistent comparator that fixes the
    result, which is computed here by stable insertion.  With a comparator
    that is not consistent the order is left to the implementation, and
    stable insertion is one it may produce. *)
Section ArraySort.
Context {A : Type} (compareFn : A -> A -> Z).

Fixpoint sortedInsert (a : A) (l : list A) : list A :=
  match l with
  | [] => [a]
  | b :: l' =>
      if compareFn a b <=? 0 then a :: l else b :: sortedInsert a l'
  end.

Fixpoint Array_sort (l : list A) : list A :=
  match l with
  | [] => []
  | a :: l' => sortedInsert a (Array_sort l')
  end.
End ArraySort.

(** For the proofs: the comparator [(a, b) => key(b) - key(a)] on a key
    that is a number, the order it sorts into, and the test for one value
    of the key. *)
Section ByKey.
Context {A : Type} (key : A -> Z).

Definition descending (a b : A) : Z := key b - key a.

Definition newerFirst (a b : A) : Prop := key b <= key a.

Definition at_time (t : Z) (a : A) : bool := key a =? t.
End ByKey.

(** *** The reconciler: [allMessages] *)

Definition has (s : gset jsstring) (x : jsstring) : bool :=
  bool_decide (x ∈ s).

Definition loadedMessageIds (loadedMessages : list ChatMessage) : gset jsstring :=
  list_to_set (List.map id loadedMessages).

(** [combinedMessages]: the history window, with every live message whose
    id is non-empty and not in [loadedMessageIds] put in front
    ([unshift]), one after the other.  On an empty live buffer the loop
    does not run. *)
Definition combinedMessages (loadedMessages wsMessages : list ChatMessage)
  : list ChatMessage :=
  let ids := loadedMessageIds loadedMessages in
  fold_left
    (fun combined wsMsg =>
       if truthy (id wsMsg) && negb (has ids (id wsMsg))
       then wsMsg :: combined else combined)
    wsMessages loadedMessages.

(** The callback of [combinedMessages.some]. *)
Definition isRealMessageOf (pending msg : ChatMessage) : bool :=
  if bool_decide (id msg = id pending) then true
  else if bool_decide (content msg = content pending)
          && bool_decide (senderId msg = senderId pending)
          && bool_decide (type msg = type pending)
  then
    let msgTime := getTime msg in
    let pendingTime := getTime pending in
    let timeDiff := Math_abs (minus msgTime pendingTime) in
    lessThan timeDiff 10000
  else false.

Definition hasRealMessage (combined : list ChatMessage) (pending : ChatMessage)
  : bool :=
  existsb (isRealMessageOf pending) combined.

(** The callback of [pendingMessages.filter]. *)
Definition keepPending (combined : list ChatMessage) (pending : ChatMessage)
  : bool :=
  if status_eqb (status pending) SUCCESS
  then negb (hasRealMessage combined pending)
  else true.

Definition pendingWithoutDuplicates
  (combined pendingMessages : list ChatMessage) : list ChatMessage :=
  List.filter (keepPending combined) pendingMessages.

Definition allCombined
  (loadedMessages wsMessages pendingMessages : list ChatMessage)
  (deletedMessages : gset jsstring) : list ChatMessage :=
  let combined := combinedMessages loadedMessages wsMessages in
  List.filter (fun msg => negb (has deletedMessages (id msg)))
    (combined ++ pendingWithoutDuplicates combined pendingMessages).

Definition compareFn (a b : ChatMessage) : option Z :=
  minus (getTime b) (getTime a).

Definition allMessages
  (loadedMessages wsMessages pendingMessages : list ChatMessage)
  (deletedMessages : gset jsstring) : list ChatMessage :=
  Array_sort (fun a b => SortCompare (compareFn a b))
    (allCombined loadedMessages wsMessages pendingMessages deletedMessages).

(** For the proofs: the time value of a message whose [createdAt] is a
    date (and zero for the others). *)
Definition instant (m : ChatMessage) : Z :=
  match getTime m with
  | Some t => t
  | None => 0
  end.

(** [a] is not older than [b]: both are dated, [a] at or after [b]. *)
Definition notOlder (a b : ChatMessage) : Prop :=
  exists ta tb, getTime a = Some ta /\ getTime b = Some tb /\ tb <= ta.

(** [a] is not newer than [b]. *)
Definition notNewer (a b : ChatMessage) : Prop := notOlder b a.

(** The test for one value of [createdAt]. *)
Definition createdAtIs (t : Z) (m : ChatMessage) : bool :=
  bool_decide (getTime m = Some t).

(** The test a live message passes to be merged in. *)
Definition acceptedLive (loadedMessages : list ChatMessage) (wsMsg : ChatMessage)
  : bool :=
  truthy (id wsMsg) && negb (has (loadedMessageIds loadedMessages) (id wsMsg)).

(** The fuzzy match of the code: same content, sender and kind, and
    timestamps (both dates) less than ten seconds apart. *)
Definition fuzzyMatch (pending msg : ChatMessage) : Prop :=
  content msg = content pending
  /\ senderId msg = senderId pending
  /\ type msg = type pending
  /\ exists msgTime pendingTime,
      getTime msg = Some msgTime /\ getTime pending = Some pendingTime
      /\ Z.abs (msgTime - pendingTime) < 10000.

(** The fuzzy match in the words of the specification: the timestamp of
    the message lies in the closed interval of ten seconds around that of
    the entry. *)
Definition fuzzyMatchInclusive (pending msg : ChatMessage) : Prop :=
  content msg = content pending
  /\ senderId msg = senderId pending
  /\ type msg = type pending
  /\ exists msgTime pendingTime,
      getTime msg = Some msgTime /\ getTime pending = Some pendingTime
      /\ pendingTime - 10000 <= msgTime <= pendingTime + 10000.

(** *** Component state *)

(** Props and session the component closes over. *)
Record ChatContext := {
  props_courseId : jsstring;
  session_user_id : jsstring;
  session_user_name : option jsstring;
  session_user_thumbnailUrl : option jsstring
}.

(** The [useState] cells the handlers touch, with the two message stores
    held by the hooks: [loadedMessages] (useChatInfiniteScroll) and
    [wsMessages] (useChatWebSocket). *)
Record ChatState := {
  messageText : jsstring;
  editingMessageId : option jsstring;
  editingText : jsstring;
  pendingMessages : list ChatMessage;
  showEmojiPicker : bool;
  deletingMessages : gset jsstring;
  updatingMessages : gset jsstring;
  deletedMessages : gset jsstring;
  shouldScrollToBottom : bool;
  loadedMessages : list ChatMessage;
  wsMessages : list ChatMessage
}.

Definition setMessageText (v : jsstring) (st : ChatState) : ChatState :=
  {| messageText := v; editingMessageId := editingMessageId st;
     editingText := editingText st; pendingMessages := pendingMessages st;
     showEmojiPicker := showEmojiPicker st;
     deletingMessages := deletingMessages st;
     updatingMessages := updatingMessages st;
     deletedMessages := deletedMessages st;
     shouldScrollToBottom := shouldScrollToBottom st;
     loadedMessages := loadedMessages st; wsMessages := wsMessages st |}.

Definition setEditingMessageId (v : option jsstring) (st : ChatState) : ChatState :=
  {| messageText := messageText st; editingMessageId := v;
     editingText := editingText st; pendingMessages := pendingMessages st;
     showEmojiPicker := showEmojiPicker st;
     deletingMessages := deletingMessages st;
     updatingMessages := updatingMessages st;
     deletedMessages := deletedMessages st;
     shouldScrollToBottom := shouldScrollToBottom st;
     loadedMessages := loadedMessages st; wsMessages := wsMessages st |}.

Definition setEditingText (v : jsstring) (st : ChatState) : ChatState :=
  {| messageText := messageText st; editingMessageId := editingMessageId st;
     editingText := v; pendingMessages := pendingMessages st;
     showEmojiPicker := showEmojiPicker st;
     deletingMessages := deletingMessages st;
     updatingMessages := updatingMessages st;
     deletedMessages := deletedMessages st;
     shouldScrollToBottom := shouldScrollToBottom st;
     loadedMessages := loadedMessages st; wsMessages := wsMessages st |}.

Definition setPendingMessages
  (f : list ChatMessage -> list ChatMessage) (st : ChatState) : ChatState :=
  {| messageText := messageText st; editingMessageId := editingMessageId st;
     editingText := editingText st; pendingMessages := f (pendingMessages st);
     showEmojiPicker := showEmojiPicker st;
     deletingMessages := deletingMessages st;
     updatingMessages := updatingMessages st;
     deletedMessages := deletedMessages st;
     shouldScrollToBottom := shouldScrollToBottom st;
     loadedMessages := loadedMessages st; wsMessages := wsMessages st |}.

(** [setPendingMessages] with an updater that may throw. *)
Definition setPendingMessagesOrThrow
  (f : list ChatMessage -> option (list ChatMessage)) (st : ChatState)
  : option ChatState :=
  match f (pendingMessages st) with
  | Some l => Some (setPendingMessages (fun _ => l) st)
  | None => None
  end.

Definition setShowEmojiPicker (v : bool) (st : ChatState) : ChatState :=
  {| messageText := messageText st; editingMessageId := editingMessageId st;
     editingText := editingText st; pendingMessages := pendingMessages st;
     showEmojiPicker := v;
     deletingMessages := deletingMessages st;
     updatingMessages := updatingMessages st;
     deletedMessages := deletedMessages st;
     shouldScrollToBottom := shouldScrollToBottom st;
     loadedMessages := loadedMessages st; wsMessages := wsMessages st |}.

Definition setDeletingMessages
  (f : gset jsstring -> gset jsstring) (st : ChatState) : ChatState :=
  {| messageText := messageText st; editingMessageId := editingMessageId st;
     editingText := editingText st; pendingMessages := pendingMessages st;
     showEmojiPicker := showEmojiPicker st;
     deletingMessages := f (deletingMessages st);
     updatingMessages := updatingMessages st;
     deletedMessages := deletedMessages st;
     shouldScrollToBottom := shouldScrollToBottom st;
     loadedMessages := loadedMessages st; wsMessages := wsMessages st |}.

Definition setUpdatingMessages
  (f : gset jsstring -> gset jsstring) (st : ChatState) : ChatState :=
  {| messageText := messageText st; editingMessageId := editingMessageId st;
     editingText := editingText st; pendingMessages := pendingMessages st;
     showEmojiPicker := showEmojiPicker st;
     deletingMessages := deletingMessages st;
     updatingMessages := f (updatingMessages st);
     deletedMessages := deletedMessages st;
     shouldScrollToBottom := shouldScrollToBottom st;
     loadedMessages := loadedMessages st; wsMessages := wsMessages st |}.

Definition setDeletedMessages
  (f : gset jsstring -> gset jsstring) (st : ChatState) : ChatState :=
  {| messageText := messageText st; editingMessageId := editingMessageId st;
     editingText := editingText st; pendingMessages := pendingMessages st;
     showEmojiPicker := showEmojiPicker st;
     deletingMessages := deletingMessages st;
     updatingMessages := updatingMessages st;
     deletedMessages := f (deletedMessages st);
     shouldScrollToBottom := shouldScrollToBottom st;
     loadedMessages := loadedMessages st; wsMessages := wsMessages st |}.

Definition setShouldScrollToBottom (v : bool) (st : ChatState) : ChatState :=
  {| messageText := messageText st; editingMessageId := editingMessageId st;
     editingText := editingText st; pendingMessages := pendingMessages st;
     showEmojiPicker := showEmojiPicker st;
     deletingMessages := deletingMessages st;
     updatingMessages := updatingMessages st;
     deletedMessages := deletedMessages st;
     shouldScrollToBottom := v;
     loadedMessages := loadedMessages st; wsMessages := wsMessages st |}.

Definition setLoadedMessages
  (f : list ChatMessage -> list ChatMessage) (st : ChatState) : ChatState :=
  {| messageText := messageText st; editingMessageId := editingMessageId st;
     editingText := editingText st; pendingMessages := pendingMessages st;
     showEmojiPicker := showEmojiPicker st;
     deletingMessages := deletingMessages st;
     updatingMessages := updatingMessages st;
     deletedMessages := deletedMessages st;
     shouldScrollToBottom := shouldScrollToBottom st;
     loadedMessages := f (loadedMessages st); wsMessages := wsMessages st |}.

Definition setWsMessages
  (f : list ChatMessage -> list ChatMessage) (st : ChatState) : ChatState :=
  {| messageText := messageText st; editingMessageId := editingMessageId st;
     editingText := editingText st; pendingMessages := pendingMessages st;
     showEmojiPicker := showEmojiPicker st;
     deletingMessages := deletingMessages st;
     updatingMessages := updatingMessages st;
     deletedMessages := deletedMessages st;
     shouldScrollToBottom := shouldScrollToBottom st;
     loadedMessages := loadedMessages st; wsMessages := f (wsMessages st) |}.

(** *** Store operations of the hooks *)

(** A [Partial<ChatMessage>]: the fields an object literal sets. *)
Inductive FieldUpdate :=
| F_id (v : jsstring)
| F_tempId (v : jsstring)
| F_courseId (v : jsstring)
| F_content (v : jsstring)
| F_type (v : jsstring)
| F_senderId (v : jsstring)
| F_senderName (v : jsstring)
| F_senderThumbnailUrl (v : jsstring)
| F_senderRole (v : jsstring)
| F_createdAt (v : option Z)
| F_status (v : MessageStatus).

(** [{ ...m, f }] *)
Definition setField (m : ChatMessage) (f : FieldUpdate) : ChatMessage :=
  match f with
  | F_id v =>
      {| id := v; tempId := tempId m; courseId := courseId m;
         content := content m; type := type m; senderId := senderId m;
         senderName := senderName m;
         senderThumbnailUrl := senderThumbnailUrl m;
         senderRole := senderRole m; createdAt := createdAt m;
         status := status m |}
  | F_tempId v =>
      {| id := id m; tempId := Some v; courseId := courseId m;
         content := content m; type := type m; senderId := senderId m;
         senderName := senderName m;
         senderThumbnailUrl := senderThumbnailUrl m;
         senderRole := senderRole m; createdAt := createdAt m;
         status := status m |}
  | F_courseId v =>
      {| id := id m; tempId := tempId m; courseId := v;
         content := content m; type := type m; senderId := senderId m;
         senderName := senderName m;
         senderThumbnailUrl := senderThumbnailUrl m;
         senderRole := senderRole m; createdAt := createdAt m;
         status := status m |}
  | F_content v =>
      {| id := id m; tempId := tempId m; courseId := courseId m;
         content := v; type := type m; senderId := senderId m;
         senderName := senderName m;
         senderThumbnailUrl := senderThumbnailUrl m;
         senderRole := senderRole m; createdAt := createdAt m;
         status := status m |}
  | F_type v =>
      {| id := id m; tempId := tempId m; courseId := courseId m;
         content := content m; type := v; senderId := senderId m;
         senderName := senderName m;
         senderThumbnailUrl := senderThumbnailUrl m;
         senderRole := senderRole m; createdAt := createdAt m;
         status := status m |}
  | F_senderId v =>
      {| id := id m; tempId := tempId m; courseId := courseId m;
         content := content m; type := type m; senderId := v;
         senderName := senderName m;
         senderThumbnailUrl := senderThumbnailUrl m;
         senderRole := senderRole m; createdAt := createdAt m;
         status := status m |}
  | F_senderName v =>
      {| id := id m; tempId := tempId m; courseId := courseId m;
         content := content m; type := type m; senderId := senderId m;
         senderName := v;
         senderThumbnailUrl := senderThumbnailUrl m;
         senderRole := senderRole m; createdAt := createdAt m;
         status := status m |}
  | F_senderThumbnailUrl v =>
      {| id := id m; tempId := tempId m; courseId := courseId m;
         content := content m; type := type m; senderId := senderId m;
         senderName := senderName m;
         senderThumbnailUrl := Some v;
         senderRole := senderRole m; createdAt := createdAt m;
         status := status m |}
  | F_senderRole v =>
      {| id := id m; tempId := tempId m; courseId := courseId m;
         content := content m; type := type m; senderId := senderId m;
         senderName := senderName m;
         senderThumbnailUrl := senderThumbnailUrl m;
         senderRole := v; createdAt := createdAt m;
         status := status m |}
  | F_createdAt v =>
      {| id := id m; tempId := tempId m; courseId := courseId m;
         content := content m; type := type m; senderId := senderId m;
         senderName := senderName m;
         senderThumbnailUrl := senderThumbnailUrl m;
         senderRole := senderRole m; createdAt := v;
         status := status m |}
  | F_status v =>
      {| id := id m; tempId := tempId m; courseId := courseId m;
         content := content m; type := type m; senderId := senderId m;
         senderName := senderName m;
         senderThumbnailUrl := senderThumbnailUrl m;
         senderRole := senderRole m; createdAt := createdAt m;
         status := Some v |}
  end.

(** [{ ...m, ...updates }] *)
Definition spread (m : ChatMessage) (updates : list FieldUpdate) : ChatMessage :=
  fold_left setField updates m.

Definition optionalField {V} (mk : V -> FieldUpdate) (o : option V)
  : list FieldUpdate :=
  match o with Some v => [mk v] | None => [] end.

(** The own fields of a message object, as a partial update. *)
Definition fieldsOf (d : ChatMessage) : list FieldUpdate :=
  [F_id (id d)] ++ optionalField F_tempId (tempId d)
  ++ [F_courseId (courseId d); F_content (content d); F_type (type d);
      F_senderId (senderId d); F_senderName (senderName d)]
  ++ optionalField F_senderThumbnailUrl (senderThumbnailUrl d)
  ++ [F_senderRole (senderRole d); F_createdAt (createdAt d)]
  ++ optionalField F_status (status d).

(** [{ ...m, ...d }] for a whole message [d], field by field: the fields
    every message has are those of [d], an optional field is that of [d]
    where [d] has it and that of [m] where not. *)
Definition overwrittenBy (m d : ChatMessage) : ChatMessage :=
  {| id := id d;
     tempId := match tempId d with Some v => Some v | None => tempId m end;
     courseId := courseId d;
     content := content d;
     type := type d;
     senderId := senderId d;
     senderName := senderName d;
     senderThumbnailUrl :=
       match senderThumbnailUrl d with
       | Some v => Some v
       | None => senderThumbnailUrl m
       end;
     senderRole := senderRole d;
     createdAt := createdAt d;
     status := match status d with Some v => Some v | None => status m end |}.

(** Modelled from the spec: [updateMessage] of useChatInfiniteScroll (the
    hook is not part of the sources), "patch(id, partialFields): applies
    an in-place edit to an existing message; no-op if id absent". *)
Definition updateInfiniteScrollMessage
  (messageId : jsstring) (updates : list FieldUpdate)
  (window : list ChatMessage) : list ChatMessage :=
  List.map
    (fun m => if bool_decide (id m = messageId) then spread m updates else m)
    window.

(** Modelled from the spec: [removeMessage] of useChatInfiniteScroll (the
    hook is not part of the sources), "remove(id): deletes a message from
    the window by id; no-op if absent". *)
Definition removeMessage (messageId : jsstring) (window : list ChatMessage)
  : list ChatMessage :=
  List.filter (fun m => negb (bool_decide (id m = messageId))) window.

(** Modelled from the spec: [removeMessage] of useChatWebSocket (the hook
    is not part of the sources), "remove from the live buffer". *)
Definition removeWSMessage (messageId : jsstring) (buffer : list ChatMessage)
  : list ChatMessage :=
  List.filter (fun m => negb (bool_decide (id m = messageId))) buffer.

(** *** Event handlers

    A handler is a script of state updates and notifications around the
    calls to the chat API.  It suspends at [Await]; what the call yields
    ([.unwrap()] fulfilled or rejected) selects the continuation, so the
    branches of [try]/[catch] are the branches of [k]. *)

Inductive Request :=
| SendMessage (courseId content type tempId : jsstring)
| UpdateMessage (courseId messageId type content : jsstring)
| DeleteMessage (courseId messageId : jsstring).

(** The awaited result: the response body's [data], or a rejection. *)
Inductive Outcome :=
| Fulfilled (data : option ChatMessage)
| Rejected.

(** [SetStateOrThrow] is a state update whose updater function may throw.
    React runs the updater when it renders, not inside the handler that
    queued it: the exception is not caught by the handler's [try], the
    render fails and the update is lost. *)
Inductive Handler :=
| Return
| SetState (f : ChatState -> ChatState) (k : Handler)
| SetStateOrThrow (f : ChatState -> option ChatState) (k : Handler)
| ToastError (msg : string) (k : Handler)
| Await (r : Request) (k : Outcome -> Handler).

Notation "f ;; k" := (SetState f k) (at level 100, right associativity).

(** What the outside sees of a run: each request with the state it was
    issued in, each notification, and a render that failed on an exception
    of an updater. *)
Inductive Observation :=
| Requested (r : Request) (st : ChatState)
| Toasted (msg : string)
| RenderThrew.

Fixpoint run (h : Handler) (api : Request -> Outcome) (st : ChatState)
  : ChatState * list Observation :=
  match h with
  | Return => (st, [])
  | SetState f k => run k api (f st)
  | SetStateOrThrow f k =>
      match f st with
      | Some st' => run k api st'
      | None => let '(_, evs) := run k api st in (st, RenderThrew :: evs)
      end
  | ToastError msg k =>
      let '(st', evs) := run k api st in (st', Toasted msg :: evs)
  | Await r k =>
      let '(st', evs) := run (k (api r)) api st in
      (st', Requested r st :: evs)
  end.

Definition requests (evs : list Observation) : list (Request * ChatState) :=
  flat_map
    (fun e => match e with Requested r st => [(r, st)] | _ => [] end)
    evs.

Definition toasts (evs : list Observation) : list string :=
  flat_map
    (fun e => match e with Toasted msg => [msg] | _ => [] end)
    evs.

(** [a || b] on an optional string. *)
Definition orElse (a : option jsstring) (b : jsstring) : jsstring :=
  match a with
  | Some v => if truthy v then v else b
  | None => b
  end.

(** [a || undefined] *)
Definition orUndefined (a : option jsstring) : option jsstring :=
  match a with
  | Some v => if truthy v then Some v else None
  | None => None
  end.

Section Handlers.
(** [convertEmojiToText] of useEmojiUtils. *)
Variable convertEmojiToText : jsstring -> jsstring.

Variable ctx : ChatContext.

(** [handleSendMessage], in a render with state [st]; [uuid] is the
    value of [uuidv4()] and [now] the instant of [new Date()].  Moving
    the focus back to the text area touches no state and is left out.
    In the branch of the fulfilled call, [response.data.id] is read inside
    the updater, once for each entry of the outbox with the temporary id:
    with no [data] in the response that read throws there, outside the
    [try], and the [catch] branch does not run. *)
Definition handleSendMessage (st : ChatState) (uuid : jsstring) (now : Z)
  : Handler :=
  if negb (truthy (trim (messageText st))) then Return
  else
    let contentToSend := convertEmojiToText (trim (messageText st)) in
    let optimisticMessage :=
      {| id := uuid;
         tempId := Some uuid;
         courseId := props_courseId ctx;
         content := contentToSend;
         type := lit "TEXT";
         senderId := session_user_id ctx;
         senderName := orElse (session_user_name ctx) (lit "You");
         senderThumbnailUrl := orUndefined (session_user_thumbnailUrl ctx);
         senderRole := lit "STUDENT";
         createdAt := Some now;
         status := Some PENDING |} in
    setPendingMessages (fun prev => prev ++ [optimisticMessage]) ;;
    setShouldScrollToBottom true ;;
    setMessageText [] ;;
    setShowEmojiPicker false ;;
    Await
      (SendMessage (props_courseId ctx) contentToSend (lit "TEXT") uuid)
      (fun response =>
         match response with
         | Fulfilled response_data =>
             SetStateOrThrow
               (setPendingMessagesOrThrow
                  (mapM
                     (fun msg =>
                        if bool_decide (tempId msg = Some uuid)
                        then
                          match response_data with
                          | Some data =>
                              Some (spread msg
                                      [F_id (id data); F_tempId uuid;
                                       F_status SUCCESS])
                          | None => None
                          end
                        else Some msg)))
               Return
         | Rejected =>
             setPendingMessages
               (List.map
                  (fun msg =>
                     if bool_decide (tempId msg = Some uuid)
                     then spread msg [F_status ERROR]
                     else msg)) ;;
             ToastError "Failed to send message. Please try again." Return
         end).

(** [handleEditMessage] *)
Definition handleEditMessage (st : ChatState) (messageId : jsstring)
  : Handler :=
  if negb (truthy (trim (editingText st))) then Return
  else
    let finally :=
      setUpdatingMessages (fun prev => prev ∖ {[messageId]}) ;; Return in
    setUpdatingMessages (fun prev => prev ∪ {[messageId]}) ;;
    setLoadedMessages
      (updateInfiniteScrollMessage messageId
         [F_content (trim (editingText st))]) ;;
    Await
      (UpdateMessage (props_courseId ctx) messageId (lit "TEXT")
         (trim (editingText st)))
      (fun result =>
         match result with
         | Fulfilled data =>
             setEditingMessageId None ;;
             setEditingText [] ;;
             match data with
             | Some d =>
                 setLoadedMessages
                   (updateInfiniteScrollMessage messageId (fieldsOf d)) ;;
                 finally
             | None => finally
             end
         | Rejected =>
             ToastError "Failed to update message. Please try again."
               finally
         end).

(** [handleDeleteMessage] *)
Definition handleDeleteMessage (messageId : jsstring) : Handler :=
  setDeletingMessages (fun prev => prev ∪ {[messageId]}) ;;
  Await
    (DeleteMessage (props_courseId ctx) messageId)
    (fun result =>
       match result with
       | Fulfilled _ =>
           setLoadedMessages (removeMessage messageId) ;;
           setWsMessages (removeWSMessage messageId) ;;
           setDeletedMessages (fun prev => prev ∪ {[messageId]}) ;;
           setDeletingMessages (fun prev => prev ∖ {[messageId]}) ;;
           Return
       | Rejected =>
           ToastError "Failed to delete message. Please try again."
             (setDeletingMessages (fun prev => prev ∖ {[messageId]}) ;;
              Return)
       end).

(** The [onReconnect] callback given to useChatWebSocket. *)
Definition onReconnect : Handler :=
  setPendingMessages
    (List.filter (fun p => negb (status_eqb (status p) SUCCESS))) ;;
  Return.

(** What happens to the widget while the conversation stays the same, each
    with the API's answers: the user sends, edits or deletes, or the
    transport reconnects. *)
Inductive Action :=
| DoSend (uuid : jsstring) (now : Z)
| DoEdit (messageId : jsstring)
| DoDelete (messageId : jsstring)
| DidReconnect.

Definition handlerOf (a : Action) (st : ChatState) : Handler :=
  match a with
  | DoSend uuid now => handleSendMessage st uuid now
  | DoEdit messageId => handleEditMessage st messageId
  | DoDelete messageId => handleDeleteMessage messageId
  | DidReconnect => onReconnect
  end.

Definition perform (st : ChatState) (a : Action * (Request -> Outcome))
  : ChatState :=
  fst (run (handlerOf (fst a) st) (snd a) st).

Definition performAll (st : ChatState)
  (l : list (Action * (Request -> Outcome))) : ChatState :=
  fold_left perform l st.

End Handlers.

(** A confirmed text message, for examples. *)
Definition textMessage (i sender text : string) (t : Z) : ChatMessage :=
  {| id := lit i; tempId := None; courseId := lit "C1"; content := lit text;
     type := lit "TEXT"; senderId := lit sender; senderName := lit sender;
     senderThumbnailUrl := None; senderRole := lit "STUDENT";
     createdAt := Some t; status := None |}.

(** A confirmed entry of the outbox, for examples. *)
Definition sentMessage (i sender text : string) (t : Z) : ChatMessage :=
  spread (textMessage i sender text t) [F_tempId (lit "tmp-1"); F_status SUCCESS].

(** A context and a state of the component, for examples. *)
Definition exampleContext : ChatContext :=
  {| props_courseId := lit "C1"; session_user_id := lit "U1";
     session_user_name := Some (lit "Ada"); session_user_thumbnailUrl := None |}.

Definition exampleState : ChatState :=
  {| messageText := lit " Hi ";
     editingMessageId := Some (lit "M1");
     editingText := lit " Hello again ";
     pendingMessages := [];
     showEmojiPicker := false;
     deletingMessages := ∅;
     updatingMessages := ∅;
     deletedMessages := ∅;
     shouldScrollToBottom := false;
     loadedMessages := [textMessage "M1" "U1" "Hello" 1000];
     wsMessages := [textMessage "M1" "U1" "Hello" 1000] |}.

(** *** Editing, and what is rendered *)

Section Editing.
(** [String.prototype.toUpperCase]; its case mapping is not reproduced. *)
Variable toUpperCase : jsstring -> jsstring.

Variable ctx : ChatContext.

Definition isCurrentUser (message : ChatMessage) : bool :=
  bool_decide (senderId message = session_user_id ctx).

Definition canEditMessage (st : ChatState) (message : ChatMessage) : bool :=
  isCurrentUser message
  && bool_decide (toUpperCase (type message) = lit "TEXT")
  && negb (status_eqb (status message) PENDING)
  && negb (status_eqb (status message) ERROR)
  && negb (has (updatingMessages st) (id message))
  && negb (has (deletingMessages st) (id message)).

(** [startEditing]; [message.content || ""] is the content itself. *)
Definition startEditing (message : ChatMessage) : Handler :=
  if negb (bool_decide (toUpperCase (type message) = lit "TEXT")) then
    ToastError "Only text messages can be edited." Return
  else
    setEditingMessageId (Some (id message)) ;;
    setEditingText (content message) ;;
    Return.

Definition cancelEditing : Handler :=
  setEditingMessageId None ;;
  setEditingText [] ;;
  Return.

End Editing.

(** The list handed to the renderer: [[...allMessages].reverse()]. *)
Definition renderedMessages
  (loadedMessages wsMessages pendingMessages : list ChatMessage)
  (deletedMessages : gset jsstring) : list ChatMessage :=
  rev (allMessages loadedMessages wsMessages pendingMessages deletedMessages).

(** The optimistic entry [handleSendMessage] puts in the outbox. *)
Definition optimisticMessageOf (convertEmojiToText : jsstring -> jsstring)
  (ctx : ChatContext) (st : ChatState) (uuid : jsstring) (now : Z)
  : ChatMessage :=
  {| id := uuid;
     tempId := Some uuid;
     courseId := props_courseId ctx;
     content := convertEmojiToText (trim (messageText st));
     type := lit "TEXT";
     senderId := session_user_id ctx;
     senderName := orElse (session_user_name ctx) (lit "You");
     senderThumbnailUrl := orUndefined (session_user_thumbnailUrl ctx);
     senderRole := lit "STUDENT";
     createdAt := Some now;
     status := Some PENDING |}.

End Chat.

(** ** The message bubble: ChatMessageItem *)

Module ChatMessageItem.

(** A number of [formatTimeAgo]: an integer, or NaN.  The integers are
    differences of time values in milliseconds, and their quotients. *)
Definition num := option Z.

Definition sub (a b : num) : num :=
  match a, b with
  | Some x, Some y => Some (toDouble (x - y))
  | _, _ => None
  end.

(** [Math.floor(a / k)].  The quotient of the Numbers is the exact
    quotient rounded, and its floor is the floor of the exact quotient:
    [a] is a difference of time values (each at most 8.64e15 in magnitude)
    divided by 60000 or 3600000, or a number of hours or days, and a
    quotient that is no integer is then further from the next integer
    (by [1/k] at least) than rounding moves it. *)
Definition floorDiv (a : num) (k : Z) : num :=
  match a with
  | Some x => Some (x / k)
  | None => None
  end.

(** [a < k]: false on NaN. *)
Definition lt (a : num) (k : Z) : bool :=
  match a with
  | Some x => x <? k
  | None => false
  end.

(** The number in a template literal. *)
Definition toString (a : num) : jsstring :=
  match a with
  | Some x => lit (NilZero.string_of_int (Z.to_int x))
  | None => lit "NaN"
  end.

(** [formatTimeAgo(dateString)] at the instant [now]; [date] is the time
    value of [new Date(dateString)], [None] for an invalid date.  Nothing
    in the [try] block throws. *)
Definition formatTimeAgo (now : Z) (date : option Z) : jsstring :=
  let diffInMs := sub (Some now) date in
  let diffInMinutes := floorDiv diffInMs (1000 * 60) in
  let diffInHours := floorDiv diffInMs (1000 * 60 * 60) in
  if lt diffInMinutes 1 then lit "just now"
  else if lt diffInMinutes 60 then toString diffInMinutes ++ lit "m ago"
  else if lt diffInHours 24 then toString diffInHours ++ lit "h ago"
  else
    let diffInDays := floorDiv diffInHours 24 in
    if lt diffInDays 7 then toString diffInDays ++ lit "d ago"
    else
      let diffInWeeks := floorDiv diffInDays 7 in
      if lt diffInWeeks 4 then toString diffInWeeks ++ lit "w ago"
      else
        let diffInMonths := floorDiv diffInDays 30 in
        if lt diffInMonths 12 then toString diffInMonths ++ lit "mo ago"
        else
          let diffInYears := floorDiv diffInDays 365 in
          toString diffInYears ++ lit "y ago".

Definition minuteMs : Z := 60000.
Definition hourMs : Z := 3600000.
Definition dayMs : Z := 86400000.

End ChatMessageItem.

(** ** The transport session: WebSocketService *)

Module WebSocketService.

(** The data of a [WebSocketConfig].  Its callbacks ([onConnect],
    [onError], [onDisconnect], [onReconnect], [onMessage]) belong to the
    owner of the session; each call of one is recorded in the log. *)
Record WebSocketConfig := {
  baseUrl : jsstring;
  token : jsstring;
  courseId : jsstring;
  userId : option jsstring
}.

(** What the service does to the outside: an error notification shown
    ([toast.error]), a callback of its owner called, a call on a STOMP
    client or on a subscription. *)
Inductive Effect :=
| Notify (msg : string)
| Callback_onConnect
| Callback_onError
| Callback_onDisconnect
| Callback_onReconnect
| Activate (c : nat)
| Deactivate (c : nat)
| Subscribe (c : nat) (destination : jsstring)
| Unsubscribe (destination : jsstring).

(** The state of a promise returned by [connect] or [disconnect]. *)
Inductive PromiseState :=
| Pending
| Resolved
| RejectedWith (reason : jsstring).

(** A promise, and whether the reconnection timer chained its
    [.then(onReconnect).catch(toast)] on it. *)
Record Promise := {
  state : PromiseState;
  chained : bool
}.

(** What [onDisconnect] of a STOMP client is: the handler [connect] gives
    it, or the one [disconnect] replaces it with, which resolves promise
    [p]. *)
Inductive DisconnectHandler :=
| AutoReconnect
| Teardown (p : nat).

(** A [Client] object with what its callbacks close over: the [config]
    and the [resolve]/[reject] of the [connect] call that made it. *)
Record ClientObject := {
  clientConfig : WebSocketConfig;
  connectPromise : nat;
  onDisconnect : DisconnectHandler
}.

(** The fields of the service object. *)
Record Service := {
  client : option nat;
  config : option WebSocketConfig;
  isConnected : bool;
  subscription : option jsstring;
  currentUserId : option jsstring;
  reconnectAttempts : Z
}.

Definition maxReconnectAttempts : Z := 5.

(** A [setTimeout] of the reconnection callback. *)
Record Timer := {
  delay : Z;
  fired : bool
}.

(** A call of [subscribeToMessages] waiting for the STOMP connection. *)
Record SubscribeTask := {
  taskCourseId : jsstring;
  taskStart : Z;
  taskDone : bool
}.

(** The service with the objects it created, in creation order, and the
    log of what it did to the outside, oldest first. *)
Record World := {
  this : Service;
  clients : list ClientObject;
  promises : list Promise;
  timers : list Timer;
  tasks : list SubscribeTask;
  log : list Effect
}.

Definition init : World :=
  {| this := {| client := None; config := None; isConnected := false;
                subscription := None; currentUserId := None;
                reconnectAttempts := 0 |};
     clients := []; promises := []; timers := []; tasks := []; log := [] |}.

Definition setThis (f : Service -> Service) (w : World) : World :=
  {| this := f (this w); clients := clients w; promises := promises w;
     timers := timers w; tasks := tasks w; log := log w |}.

Definition setClients (f : list ClientObject -> list ClientObject) (w : World)
  : World :=
  {| this := this w; clients := f (clients w); promises := promises w;
     timers := timers w; tasks := tasks w; log := log w |}.

Definition setPromises (f : list Promise -> list Promise) (w : World) : World :=
  {| this := this w; clients := clients w; promises := f (promises w);
     timers := timers w; tasks := tasks w; log := log w |}.

Definition setTimers (f : list Timer -> list Timer) (w : World) : World :=
  {| this := this w; clients := clients w; promises := promises w;
     timers := f (timers w); tasks := tasks w; log := log w |}.

Definition setTasks (f : list SubscribeTask -> list SubscribeTask) (w : World)
  : World :=
  {| this := this w; clients := clients w; promises := promises w;
     timers := timers w; tasks := f (tasks w); log := log w |}.

Definition emit (e : Effect) (w : World) : World :=
  {| this := this w; clients := clients w; promises := promises w;
     timers := timers w; tasks := tasks w; log := log w ++ [e] |}.

Definition setClient (v : option nat) (s : Service) : Service :=
  {| client := v; config := config s; isConnected := isConnected s;
     subscription := subscription s; currentUserId := currentUserId s;
     reconnectAttempts := reconnectAttempts s |}.

Definition setConfig (v : option WebSocketConfig) (s : Service) : Service :=
  {| client := client s; config := v; isConnected := isConnected s;
     subscription := subscription s; currentUserId := currentUserId s;
     reconnectAttempts := reconnectAttempts s |}.

Definition setIsConnected (v : bool) (s : Service) : Service :=
  {| client := client s; config := config s; isConnected := v;
     subscription := subscription s; currentUserId := currentUserId s;
     reconnectAttempts := reconnectAttempts s |}.

Definition setSubscription (v : option jsstring) (s : Service) : Service :=
  {| client := client s; config := config s; isConnected := isConnected s;
     subscription := v; currentUserId := currentUserId s;
     reconnectAttempts := reconnectAttempts s |}.

Definition setCurrentUserId (v : option jsstring) (s : Service) : Service :=
  {| client := client s; config := config s; isConnected := isConnected s;
     subscription := subscription s; currentUserId := v;
     reconnectAttempts := reconnectAttempts s |}.

Definition setReconnectAttempts (v : Z) (s : Service) : Service :=
  {| client := client s; config := config s; isConnected := isConnected s;
     subscription := subscription s; currentUserId := currentUserId s;
     reconnectAttempts := v |}.

(** [a || null] *)
Definition orNull (a : option jsstring) : option jsstring :=
  match a with
  | Some v => if truthy v then Some v else None
  | None => None
  end.

(** *** Promises *)

(** What the handlers chained on a reconnection promise do when it
    settles. *)
Definition reaction (s : PromiseState) (w : World) : World :=
  match s with
  | Resolved =>
      match config (this w) with
      | Some _ => emit Callback_onReconnect w
      | None => w
      end
  | RejectedWith _ => emit (Notify "Reconnection failed. Please try again.") w
  | Pending => w
  end.

(** [resolve()] and [reject(e)]: the first one settles the promise, later
    ones do nothing. *)
Definition settle (p : nat) (s : PromiseState) (w : World) : World :=
  match promises w !! p with
  | Some pr =>
      match state pr with
      | Pending =>
          let w' :=
            setPromises (fun l => <[p := {| state := s; chained := chained pr |}]> l) w in
          if chained pr then reaction s w' else w'
      | _ => w
      end
  | None => w
  end.

Definition promiseState (p : nat) (w : World) : option PromiseState :=
  state <$> promises w !! p.

(** *** connect *)

(** Whether building the socket and the client went through, or threw. *)
Inductive SetupOutcome :=
| SetupOk
| SetupThrows (error : jsstring).

(** [connect(config)]: the new promise is the last of [promises].  With
    [chain] the caller is the reconnection timer. *)
Definition connect (cfg : WebSocketConfig) (setup : SetupOutcome) (chain : bool)
  (w : World) : World :=
  let p := length (promises w) in
  let w := setPromises (fun l => l ++ [{| state := Pending; chained := chain |}]) w in
  let w := setThis (setConfig (Some cfg)) w in
  let w := setThis (setCurrentUserId (orNull (userId cfg))) w in
  match setup with
  | SetupThrows error =>
      let w := emit (Notify "Error connecting to WebSocket. Please try again.") w in
      settle p (RejectedWith error) w
  | SetupOk =>
      let c := length (clients w) in
      let w :=
        setClients
          (fun l => l ++ [{| clientConfig := cfg; connectPromise := p;
                             onDisconnect := AutoReconnect |}]) w in
      let w := setThis (setClient (Some c)) w in
      emit (Activate c) w
  end.

(** *** subscribeToMessages *)

(** [waitForStompConnected]: [check] runs once at once and then every
    [intervalMs]; each element of [probes] is what one run of it reads,
    [Date.now()] and whether [this.client] is there and connected.  [None]:
    the checks so far did not settle the wait. *)
Fixpoint waitForStompConnected (timeoutMs start : Z) (probes : list (Z * bool))
  : option bool :=
  match probes with
  | [] => None
  | (now, connected) :: rest =>
      if connected then Some true
      else if now - start >? timeoutMs then Some false
      else waitForStompConnected timeoutMs start rest
  end.

Definition intervalMs : Z := 100.

Definition destinationOf (courseId : jsstring) : jsstring :=
  lit "/topic/courses/" ++ courseId ++ lit "/messages".

(** The call of [subscribeToMessages], up to its [await]. *)
Definition subscribeToMessages (courseId : jsstring) (now : Z) (w : World)
  : World :=
  match client (this w) with
  | None => emit (Notify "WebSocket client not initialized") w
  | Some _ =>
      setTasks
        (fun l => l ++ [{| taskCourseId := courseId; taskStart := now;
                           taskDone := false |}]) w
  end.

(** The rest of [subscribeToMessages], once the wait has settled. *)
Definition subscribeResumes (t : nat) (probes : list (Z * bool))
  (subscribeThrows : bool) (w : World) : World :=
  match tasks w !! t with
  | Some task =>
      if taskDone task then w
      else
        match waitForStompConnected 5000 (taskStart task) probes with
        | None => w
        | Some connected =>
            let w :=
              setTasks
                (fun l => <[t := {| taskCourseId := taskCourseId task;
                                    taskStart := taskStart task;
                                    taskDone := true |}]> l) w in
            if negb connected then
              emit (Notify "STOMP client not connected after wait - cannot subscribe") w
            else
              let destination := destinationOf (taskCourseId task) in
              match client (this w) with
              | Some c =>
                  if subscribeThrows then
                    emit (Notify "Error subscribing to messages. Please try again.") w
                  else
                    let w := emit (Subscribe c destination) w in
                    setThis (setSubscription (Some destination)) w
              | None =>
                  emit (Notify "Error subscribing to messages. Please try again.") w
              end
        end
  | None => w
  end.

(** *** The callbacks given to the STOMP client *)

Definition onConnect (c : nat) (now : Z) (w : World) : World :=
  match clients w !! c with
  | Some cl =>
      let w := setThis (setIsConnected true) w in
      let w := setThis (setReconnectAttempts 0) w in
      let w := subscribeToMessages (courseId (clientConfig cl)) now w in
      let w := emit Callback_onConnect w in
      settle (connectPromise cl) Resolved w
  | None => w
  end.

Definition onStompError (c : nat) (message : option jsstring) (w : World)
  : World :=
  match clients w !! c with
  | Some cl =>
      let w := emit (Notify "WebSocket connection error. Please try again.") w in
      let w := setThis (setIsConnected false) w in
      let w := emit Callback_onError w in
      let reason :=
        match orNull message with
        | Some m => m
        | None => lit "WebSocket connection failed"
        end in
      settle (connectPromise cl) (RejectedWith reason) w
  | None => w
  end.

Definition onWebSocketError (c : nat) (w : World) : World :=
  match clients w !! c with
  | Some cl =>
      let w := emit (Notify "WebSocket error. Please try again.") w in
      emit Callback_onError w
  | None => w
  end.

(** [onDisconnect] as [connect] installs it. *)
Definition autoReconnect (w : World) : World :=
  let w := setThis (setIsConnected false) w in
  let w := setThis (setSubscription None) w in
  let w := emit Callback_onDisconnect w in
  if reconnectAttempts (this w) <? maxReconnectAttempts then
    let w := setThis (fun s => setReconnectAttempts (reconnectAttempts s + 1) s) w in
    setTimers
      (fun l => l ++ [{| delay := 5000 * reconnectAttempts (this w);
                         fired := false |}]) w
  else w.

(** [onDisconnect] as [disconnect] installs it. *)
Definition teardown (p : nat) (w : World) : World :=
  let w := setThis (setIsConnected false) w in
  let w := setThis (setClient None) w in
  let w := setThis (setConfig None) w in
  let w := setThis (setCurrentUserId None) w in
  let w := setThis (setReconnectAttempts 0) w in
  settle p Resolved w.

Definition onDisconnectOf (c : nat) (w : World) : World :=
  match clients w !! c with
  | Some cl =>
      match onDisconnect cl with
      | AutoReconnect => autoReconnect w
      | Teardown p => teardown p w
      end
  | None => w
  end.

(** The body of the reconnection timer. *)
Definition timerFires (t : nat) (setup : SetupOutcome) (w : World) : World :=
  match timers w !! t with
  | Some tm =>
      if fired tm then w
      else
        let w := setTimers (fun l => <[t := {| delay := delay tm; fired := true |}]> l) w in
        match config (this w) with
        | Some cfg => connect cfg setup true w
        | None => w
        end
  | None => w
  end.

(** *** unsubscribe and disconnect *)

Definition unsubscribe (w : World) : World :=
  match subscription (this w) with
  | Some destination =>
      let w := emit (Unsubscribe destination) w in
      setThis (setSubscription None) w
  | None => w
  end.

(** [disconnect()]: the new promise is the last of [promises]. *)
Definition disconnect (w : World) : World :=
  let p := length (promises w) in
  let w := setPromises (fun l => l ++ [{| state := Pending; chained := false |}]) w in
  match client (this w) with
  | Some c =>
      if isConnected (this w) then
        let w := unsubscribe w in
        let w :=
          setClients
            (fun l =>
               match l !! c with
               | Some cl =>
                   <[c := {| clientConfig := clientConfig cl;
                             connectPromise := connectPromise cl;
                             onDisconnect := Teardown p |}]> l
               | None => l
               end) w in
        emit (Deactivate c) w
      else settle p Resolved w
  | None => settle p Resolved w
  end.


(** *** Runs of the session *)

(** What happens to the session: calls of its owner, callbacks of the
    STOMP clients, timers and resumed waits.  The STOMP library is the
    environment: when and in which order its clients call back is not
    constrained. *)
Inductive Event :=
| CallConnect (cfg : WebSocketConfig) (setup : SetupOutcome)
| CallDisconnect
| ClientOnConnect (c : nat) (now : Z)
| ClientOnStompError (c : nat) (message : option jsstring)
| ClientOnDisconnect (c : nat)
| ClientOnWebSocketError (c : nat)
| TimerFires (t : nat) (setup : SetupOutcome)
| SubscribeResumes (t : nat) (probes : list (Z * bool)) (subscribeThrows : bool).

Definition step (w : World) (e : Event) : World :=
  match e with
  | CallConnect cfg setup => connect cfg setup false w
  | CallDisconnect => disconnect w
  | ClientOnConnect c now => onConnect c now w
  | ClientOnStompError c message => onStompError c message w
  | ClientOnDisconnect c => onDisconnectOf c w
  | ClientOnWebSocketError c => onWebSocketError c w
  | TimerFires t setup => timerFires t setup w
  | SubscribeResumes t probes subscribeThrows =>
      subscribeResumes t probes subscribeThrows w
  end.

Definition exec (w : World) (tr : list Event) : World := fold_left step tr w.

(** *** Observations on runs *)


Definition isDisconnection (e : Effect) : bool :=
  match e with
  | Callback_onDisconnect => true
  | _ => false
  end.

(** How often the owner was told of a disconnect. *)
Definition disconnections (l : list Effect) : Z :=
  Z.of_nat (length (List.filter isDisconnection l)).

(** What was logged, and the delays of the timers set, from [w] to [w']. *)
Definition logSince (w w' : World) : list Effect :=
  skipn (length (log w)) (log w').


(** No client is being torn down. *)
Definition allAuto (w : World) : Prop :=
  Forall (fun cl => onDisconnect cl = AutoReconnect) (clients w).

(** A step that tells of no disconnect, sets no timer and leaves the
    attempt counter alone. *)
Definition quiet (w w1 : World) : Prop :=
  (exists L, log w1 = log w ++ L /\ disconnections L = 0)
  /\ List.map delay (timers w1) = List.map delay (timers w)
  /\ reconnectAttempts (this w1) = reconnectAttempts (this w)
  /\ (allAuto w -> allAuto w1)
  /\ (isConnected (this w1) = isConnected (this w)
      \/ isConnected (this w1) = false).

(** A configuration, for examples. *)
Definition exampleConfig : WebSocketConfig :=
  {| baseUrl := lit "https://api.example.org"; token := lit "t0k3n";
     courseId := lit "C1"; userId := Some (lit "U1") |}.

(** *** reconnect *)

(** [connect(config)] with the value [this.config] holds: on [null] the
    read of [config.userId] throws inside the [try], after [this.config]
    has been assigned. *)
Definition connectValue (arg : option WebSocketConfig) (setup : SetupOutcome)
  (chain : bool) (w : World) : World :=
  match arg with
  | Some cfg => connect cfg setup chain w
  | None =>
      let p := length (promises w) in
      let w := setPromises (fun l => l ++ [{| state := Pending; chained := chain |}]) w in
      let w := setThis (setConfig None) w in
      let w := emit (Notify "Error connecting to WebSocket. Please try again.") w in
      settle p (RejectedWith (lit "TypeError")) w
  end.

(** [reconnect()] up to its first [await]: the promise awaited is the last
    of [promises]. *)
Definition reconnectBegins (w : World) : World :=
  match config (this w) with
  | Some _ => disconnect w
  | None => w
  end.

(** [reconnect()] from the first [await] to the second, run once the
    promise of [disconnect] is resolved. *)
Definition reconnectResumes (setup : SetupOutcome) (w : World) : World :=
  connectValue (config (this w)) setup false w.

(** *** Bounds kept by every run *)

(** A delay the reconnection timer can have. *)
Definition reconnectDelay (d : Z) : Prop :=
  exists k, 1 <= k <= maxReconnectAttempts /\ d = 5000 * k.

Definition bounded (w : World) : Prop :=
  0 <= reconnectAttempts (this w) <= maxReconnectAttempts
  /\ Forall reconnectDelay (List.map delay (timers w)).

(** Promise [p] is pending and no client can settle it. *)
Definition orphaned (p : nat) (w : World) : Prop :=
  promiseState p w = Some Pending
  /\ Forall (fun cl => connectPromise cl <> p /\ onDisconnect cl <> Teardown p)
       (clients w).

(** Every promise a client refers to exists. *)
Definition wellFormed (w : World) : Prop :=
  Forall
    (fun cl =>
       (connectPromise cl < length (promises w))%nat
       /\ forall q, onDisconnect cl = Teardown q -> (q < length (promises w))%nat)
    (clients w).

End WebSocketService.

(** * Properties *)

(** ** Trimming and rounding *)

Module JsFacts.

Lemma toDouble_exact v : Z.abs v < 2 ^ 53 -> toDouble v = v.
Proof.
  intros H. unfold toDouble.
  destruct (Z.leb_spec (Z.log2 (Z.abs v) - 52) 0) as [_|He]; [reflexivity|].
  exfalso.
  assert (Ha : 0 < Z.abs v).
  { destruct (Z.eq_dec (Z.abs v) 0) as [E|E]; [|lia].
    rewrite E in He. cbn in He. lia. }
  pose proof (Z.log2_spec _ Ha) as [Hl _].
  assert (2 ^ 53 <= 2 ^ Z.log2 (Z.abs v)) by (apply Z.pow_le_mono_r; lia).
  lia.
Qed.

(** Rounding keeps the sign, and keeps a large number large. *)
Lemma toDouble_large v :
  2 ^ 53 <= Z.abs v ->
  2 ^ 53 <= Z.abs (toDouble v) /\ Z.sgn (toDouble v) = Z.sgn v.
Proof.
  intros H. unfold toDouble.
  destruct (Z.leb_spec (Z.log2 (Z.abs v) - 52) 0) as [_|He]; [auto|].
  set (a := Z.abs v) in *. set (e := Z.log2 a - 52) in *.
  assert (Ha : 0 < a) by lia.
  pose proof (Z.log2_spec _ Ha) as [Hl _].
  assert (Hp : 0 < 2 ^ e) by (apply Z.pow_pos_nonneg; lia).
  assert (Hpe : 2 ^ Z.log2 a = 2 ^ 52 * 2 ^ e).
  { rewrite <- Z.pow_add_r by lia. f_equal. unfold e. lia. }
  assert (Hq : 2 ^ 52 <= a / 2 ^ e).
  { apply Z.div_le_lower_bound; [exact Hp|]. lia. }
  assert (H2 : 2 <= 2 ^ e).
  { change 2 with (2 ^ 1) at 1. apply Z.pow_le_mono_r; lia. }
  set (q' := if a mod 2 ^ e <? 2 ^ (e - 1) then a / 2 ^ e
             else if 2 ^ (e - 1) <? a mod 2 ^ e then a / 2 ^ e + 1
                  else if Z.even (a / 2 ^ e) then a / 2 ^ e
                       else a / 2 ^ e + 1).
  assert (Hq' : 2 ^ 52 <= q').
  { unfold q'.
    repeat match goal with
           | |- context [if ?b then _ else _] => destruct b
           end; lia. }
  assert (Hx : 2 ^ 53 <= q' * 2 ^ e).
  { change (2 ^ 53) with (2 ^ 52 * 2). apply Z.mul_le_mono_nonneg; lia. }
  destruct (Z.sgn_spec v) as [[Hv ->]|[[Hv ->]|[Hv ->]]];
    [|unfold a in *; lia|].
  - rewrite Z.mul_1_l. split; [lia|]. apply Z.sgn_pos. lia.
  - split; [lia|]. apply Z.sgn_neg. lia.
Qed.

Lemma toDouble_leb_0 v : (toDouble v <=? 0) = (v <=? 0).
Proof.
  destruct (Z_lt_le_dec (Z.abs v) (2 ^ 53)) as [H|H].
  - now rewrite toDouble_exact.
  - destruct (toDouble_large v H) as [_ Hs].
    destruct (Z.leb_spec (toDouble v) 0), (Z.leb_spec v 0);
      try reflexivity; exfalso.
    + rewrite (Z.sgn_pos v) in Hs by lia.
      pose proof (Z.sgn_spec (toDouble v)). lia.
    + rewrite (Z.sgn_pos (toDouble v)) in Hs by lia.
      pose proof (Z.sgn_spec v). lia.
Qed.

Lemma toDouble_abs_ltb v k :
  k <= 2 ^ 53 -> (Z.abs (toDouble v) <? k) = (Z.abs v <? k).
Proof.
  intros Hk.
  destruct (Z_lt_le_dec (Z.abs v) (2 ^ 53)) as [H|H].
  - now rewrite toDouble_exact.
  - destruct (toDouble_large v H) as [Hl _].
    destruct (Z.ltb_spec (Z.abs (toDouble v)) k), (Z.ltb_spec (Z.abs v) k);
      try reflexivity; lia.
Qed.

Lemma trimStart_blank s : blank s -> trimStart s = [].
Proof.
  induction 1 as [|c s Hc _ IH]; simpl; [reflexivity|].
  now rewrite Hc.
Qed.

Lemma trimStart_nil_blank s : trimStart s = [] -> blank s.
Proof.
  induction s as [|c s IH]; simpl; intros H; [constructor|].
  destruct (isWhiteSpace c) eqn:Hc; [|discriminate].
  apply Forall_cons_2; [exact Hc|exact (IH H)].
Qed.

Lemma trimStart_suffix s : exists p, s = p ++ trimStart s /\ blank p.
Proof.
  induction s as [|c s [p [Hp Hb]]]; simpl.
  - exists []. split; [reflexivity|constructor].
  - destruct (isWhiteSpace c) eqn:Hc.
    + exists (c :: p). split; [simpl; congruence|now constructor].
    + exists []. split; [reflexivity|constructor].
Qed.

Lemma trim_blank s : blank s -> trim s = [].
Proof.
  intros H. unfold trim, trimEnd. now rewrite (trimStart_blank s H).
Qed.

Lemma trim_nil_blank s : trim s = [] -> blank s.
Proof.
  unfold trim, trimEnd. intros H.
  destruct (trimStart_suffix s) as [p [Hp Hb]].
  assert (Hr : trimStart (rev (trimStart s)) = []).
  { apply (f_equal (@rev N)) in H. now rewrite rev_involutive in H. }
  apply trimStart_nil_blank in Hr.
  rewrite Hp. unfold blank in *. apply Forall_app. split; [exact Hb|].
  apply List.Forall_forall. intros c Hc.
  rewrite List.Forall_forall in Hr. apply Hr. now apply in_rev in Hc.
Qed.

(** The guard [if (!text.trim()) return;] fires exactly on blank text. *)
Lemma not_truthy_trim s : truthy (trim s) = false <-> blank s.
Proof.
  split.
  - intros H. apply trim_nil_blank. now destruct (trim s).
  - intros H. now rewrite trim_blank.
Qed.

End JsFacts.

(** ** The reconciler *)

Module ChatProperties.

Import Chat.

(** *** Sorting *)

Section ArraySortAny.
Context {A : Type} (cmp : A -> A -> Z).

Lemma sortedInsert_Permutation a l :
  Permutation (sortedInsert cmp a l) (a :: l).
Proof.
  induction l as [|b l IH]; simpl; [reflexivity|].
  destruct (cmp a b <=? 0); [reflexivity|].
  rewrite IH. apply perm_swap.
Qed.

Lemma Array_sort_Permutation l : Permutation (Array_sort cmp l) l.
Proof.
  induction l as [|a l IH]; simpl; [reflexivity|].
  rewrite sortedInsert_Permutation. now constructor.
Qed.

Lemma Array_sort_In l x : In x (Array_sort cmp l) <-> In x l.
Proof.
  split; apply Permutation_in;
    [apply Array_sort_Permutation | symmetry; apply Array_sort_Permutation].
Qed.

(** The sort looks at the comparator on the elements of the array only,
    and only at whether its value is positive. *)
Lemma sortedInsert_ext (cmp' : A -> A -> Z) a l :
  (forall b, In b l -> (cmp a b <=? 0) = (cmp' a b <=? 0)) ->
  sortedInsert cmp a l = sortedInsert cmp' a l.
Proof.
  induction l as [|b l IH]; intros H; [reflexivity|].
  cbn [sortedInsert]. rewrite (H b (or_introl eq_refl)).
  destruct (cmp' a b <=? 0); [reflexivity|].
  f_equal. apply IH. intros c Hc. apply H. now right.
Qed.

Lemma Array_sort_ext (cmp' : A -> A -> Z) l :
  (forall a b, In a l -> In b l -> (cmp a b <=? 0) = (cmp' a b <=? 0)) ->
  Array_sort cmp l = Array_sort cmp' l.
Proof.
  induction l as [|a l IH]; intros H; [reflexivity|].
  cbn [Array_sort]. rewrite <- IH.
  - apply sortedInsert_ext. intros b Hb.
    apply (proj1 (Array_sort_In _ _)) in Hb. apply H; [now left|now right].
  - intros b c Hb Hc. apply H; now right.
Qed.

End ArraySortAny.

Section ArraySortFacts.
Context {A : Type} (key : A -> Z).

Local Abbreviation cmp := (descending key).

Lemma sortedInsert_sorted a l :
  StronglySorted (newerFirst key) l -> StronglySorted (newerFirst key) (sortedInsert cmp a l).
Proof.
  induction 1 as [|b l Hs IH Hb]; simpl.
  - constructor; constructor.
  - unfold cmp at 1. destruct (Z.leb_spec (key b - key a) 0) as [Hle|Hgt].
    + constructor; [now constructor|].
      constructor; [unfold newerFirst; lia|].
      eapply List.Forall_impl; [|exact Hb].
      unfold newerFirst. intros c Hc. lia.
    + constructor; [exact IH|].
      eapply Permutation_Forall; [symmetry; apply sortedInsert_Permutation|].
      constructor; [unfold newerFirst; lia|exact Hb].
Qed.

Lemma Array_sort_sorted l : StronglySorted (newerFirst key) (Array_sort cmp l).
Proof.
  induction l as [|a l IH]; simpl; [constructor|].
  now apply sortedInsert_sorted.
Qed.

Lemma sortedInsert_stable t a l :
  List.filter (at_time key t) (sortedInsert cmp a l)
  = List.filter (at_time key t) (a :: l).
Proof.
  induction l as [|b l IH]; [reflexivity|].
  cbn [sortedInsert]. unfold cmp at 1.
  destruct (Z.leb_spec (key b - key a) 0) as [Hle|Hgt]; [reflexivity|].
  cbn [List.filter] in *. rewrite IH. unfold at_time.
  destruct (Z.eqb_spec (key a) t), (Z.eqb_spec (key b) t); try reflexivity.
  lia.
Qed.

Lemma Array_sort_stable t l :
  List.filter (at_time key t) (Array_sort cmp l) = List.filter (at_time key t) l.
Proof.
  induction l as [|a l IH]; [reflexivity|].
  cbn [Array_sort]. rewrite sortedInsert_stable.
  cbn [List.filter]. now rewrite IH.
Qed.

End ArraySortFacts.

(** *** The merge of history window and live buffer *)

Lemma combinedMessages_eq loadedMessages wsMessages :
  combinedMessages loadedMessages wsMessages
  = rev (List.filter (acceptedLive loadedMessages) wsMessages) ++ loadedMessages.
Proof.
  unfold combinedMessages.
  change (fun combined wsMsg =>
            if truthy (id wsMsg)
               && negb (has (loadedMessageIds loadedMessages) (id wsMsg))
            then wsMsg :: combined else combined)
    with (fun combined wsMsg =>
            if acceptedLive loadedMessages wsMsg then wsMsg :: combined
            else combined).
  generalize loadedMessages at 2 4 as acc.
  induction wsMessages as [|m ws IH]; intros acc; [reflexivity|].
  cbn [fold_left List.filter]. rewrite IH.
  destruct (acceptedLive loadedMessages m); [|reflexivity].
  cbn [rev]. now rewrite <- app_assoc.
Qed.

Lemma has_true (s : gset jsstring) x : has s x = true <-> x ∈ s.
Proof. unfold has. apply bool_decide_eq_true. Qed.

Lemma has_false (s : gset jsstring) x : has s x = false <-> x ∉ s.
Proof. unfold has. apply bool_decide_eq_false. Qed.

(** Nothing with a tombstoned id is in the output. *)
Lemma allMessages_not_deleted loaded ws pending deleted m :
  In m (allMessages loaded ws pending deleted) -> id m ∉ deleted.
Proof.
  unfold allMessages. intros H.
  apply (proj1 (Array_sort_In _ _ _)) in H.
  unfold allCombined in H. apply filter_In in H as [_ H].
  apply negb_true_iff in H. now apply has_false.
Qed.

(** *** Outbox entries against the merged set *)

Lemma isRealMessageOf_spec pending msg :
  isRealMessageOf pending msg = true
  <-> id msg = id pending \/ fuzzyMatch pending msg.
Proof.
  unfold isRealMessageOf, fuzzyMatch.
  destruct (bool_decide_reflect (id msg = id pending)) as [Hi|Hi];
    [split; auto|].
  destruct (bool_decide_reflect (content msg = content pending)) as [Hc|Hc];
    destruct (bool_decide_reflect (senderId msg = senderId pending)) as [Hs|Hs];
    destruct (bool_decide_reflect (type msg = type pending)) as [Ht|Ht];
    cbn [andb];
    try (split; [discriminate | intros [?|(? & ? & ? & ?)]; congruence]).
  destruct (getTime msg) as [msgTime|], (getTime pending) as [pendingTime|];
    cbn [minus Math_abs lessThan];
    try (split; [discriminate | intros [?|(_ & _ & _ & ? & ? & ? & ? & _)];
                                congruence]).
  rewrite JsFacts.toDouble_abs_ltb by lia.
  rewrite Z.ltb_lt. split.
  - intros H. right. repeat split; auto. now exists msgTime, pendingTime.
  - intros [?|(_ & _ & _ & a & b & Ha & Hb & H)]; [congruence|].
    now inversion Ha; inversion Hb; subst.
Qed.

Lemma hasRealMessage_spec combined pending :
  hasRealMessage combined pending = true
  <-> exists msg, In msg combined /\ (id msg = id pending \/ fuzzyMatch pending msg).
Proof.
  unfold hasRealMessage. rewrite existsb_exists.
  split; intros (msg & Hin & H); exists msg; split; auto;
    now apply isRealMessageOf_spec.
Qed.

Lemma status_eqb_SUCCESS s : status_eqb s SUCCESS = true <-> s = Some SUCCESS.
Proof.
  destruct s as [[]|]; cbn; split; congruence.
Qed.

(** C2, as the code has it: a SUCCESS entry of the outbox is dropped by the
    filter exactly when the merged set holds a message with its id, or one
    with its content, sender and kind whose timestamp is less than ten
    seconds away (at exactly ten seconds apart the entry stays); entries
    that are not SUCCESS (PENDING, ERROR) are always kept; and a kept entry
    is in the output unless its id is tombstoned. *)
Theorem pendingWithoutDuplicates_spec loaded ws pendingMessages deleted p :
  In p pendingMessages ->
  let combined := combinedMessages loaded ws in
  let kept := pendingWithoutDuplicates combined pendingMessages in
  (status p = Some SUCCESS ->
   (~ In p kept
    <-> exists msg, In msg combined /\ (id msg = id p \/ fuzzyMatch p msg)))
  /\ (status p <> Some SUCCESS -> In p kept)
  /\ (In p kept -> id p ∉ deleted ->
      In p (allMessages loaded ws pendingMessages deleted)).
Proof.
  intros Hin combined kept. unfold kept, pendingWithoutDuplicates.
  split; [|split].
  - intros Hs. rewrite filter_In, <- hasRealMessage_spec.
    unfold keepPending. rewrite (proj2 (status_eqb_SUCCESS _) Hs).
    destruct (hasRealMessage combined p); cbn; split.
    + reflexivity.
    + intros _ [_ H]. discriminate.
    + intros H. exfalso. apply H. split; [exact Hin|reflexivity].
    + discriminate.
  - intros Hs. apply filter_In. split; [exact Hin|].
    unfold keepPending.
    destruct (status_eqb (status p) SUCCESS) eqn:E; [|reflexivity].
    apply status_eqb_SUCCESS in E. contradiction.
  - intros Hk Hd. unfold allMessages.
    apply (Array_sort_In _). unfold allCombined.
    apply filter_In. split.
    + apply in_app_iff. right. exact Hk.
    + apply negb_true_iff, has_false. exact Hd.
Qed.

(** A confirmed message 9.999 s after a SUCCESS entry with its text. *)
Lemma pendingWithoutDuplicates_spec_witness :
  let p := sentMessage "S1" "U1" "Hi" 50000 in
  let msg := textMessage "M7" "U1" "Hi" 59999 in
  In p [p] /\ status p = Some SUCCESS
  /\ ~ In p (pendingWithoutDuplicates (combinedMessages [msg] []) [p]).
Proof.
  intros p msg.
  split; [left; reflexivity|]. split; [reflexivity|].
  apply (proj1 (pendingWithoutDuplicates_spec [msg] [] [p] ∅ p
                  (or_introl eq_refl)) eq_refl).
  exists msg. split; [left; reflexivity|].
  right. unfold fuzzyMatch.
  split; [reflexivity|]. split; [reflexivity|]. split; [reflexivity|].
  exists 59999, 50000.
  split; [reflexivity|]. split; [reflexivity|]. vm_compute. reflexivity.
Defined.

(** C2 as stated fails at the boundary: a confirmed message with the
    content, sender and kind of a SUCCESS entry and a timestamp exactly ten
    seconds later lies in the closed interval, and the entry is kept and
    is in the output. *)
Lemma fuzzy_match_at_ten_seconds_kept :
  let p := sentMessage "S1" "U1" "Hi" 50000 in
  let msg := textMessage "M7" "U1" "Hi" 60000 in
  status p = Some SUCCESS
  /\ fuzzyMatchInclusive p msg
  /\ In p (pendingWithoutDuplicates (combinedMessages [msg] []) [p])
  /\ allMessages [msg] [] [p] ∅ = [msg; p].
Proof.
  intros p msg. split; [reflexivity|]. split; [|split].
  - unfold fuzzyMatchInclusive.
    split; [reflexivity|]. split; [reflexivity|]. split; [reflexivity|].
    exists 60000, 50000.
    split; [reflexivity|]. split; [reflexivity|]. lia.
  - vm_compute. left. reflexivity.
  - vm_compute. reflexivity.
Qed.

(** *** Ids of the output *)

Lemma In_ids_filter (f : ChatMessage -> bool) l x :
  In x (List.map id (List.filter f l)) -> In x (List.map id l).
Proof.
  rewrite !in_map_iff. intros (m & Hm & Hin).
  apply filter_In in Hin as [Hin _]. eauto.
Qed.

Lemma NoDup_ids_filter (f : ChatMessage -> bool) l :
  NoDup (List.map id l) -> NoDup (List.map id (List.filter f l)).
Proof.
  induction l as [|m l IH]; cbn; intros H; [constructor|].
  apply NoDup_cons in H as [Hm Hl].
  destruct (f m); cbn; [|auto].
  apply NoDup_cons. split; [|auto].
  rewrite list_elem_of_In in *. intros Hin. apply Hm.
  now apply In_ids_filter in Hin.
Qed.

Lemma In_combinedMessages loaded ws m :
  In m (combinedMessages loaded ws)
  <-> (In m ws /\ acceptedLive loaded m = true) \/ In m loaded.
Proof.
  rewrite combinedMessages_eq, in_app_iff, <- in_rev, filter_In. tauto.
Qed.

(** Where the reconciler does keep ids apart: with no id twice in the
    history window, none twice in the live buffer and none twice in the
    outbox, and with the ids of the entries still PENDING or ERROR used by
    no message of the window or the buffer, the output holds no id
    twice. *)
Lemma allMessages_NoDup loaded ws pending deleted :
  NoDup (List.map id loaded) ->
  NoDup (List.map id ws) ->
  NoDup (List.map id pending) ->
  (forall p m,
      In p pending -> status p <> Some SUCCESS ->
      In m loaded \/ In m ws -> id m <> id p) ->
  NoDup (List.map id (allMessages loaded ws pending deleted)).
Proof.
  intros Hl Hw Hp Hfresh.
  unfold allMessages.
  rewrite (Permutation_map id (Array_sort_Permutation _ _)).
  unfold allCombined. apply NoDup_ids_filter.
  rewrite List.map_app. apply NoDup_app. repeat split.
  - rewrite combinedMessages_eq, List.map_app. apply NoDup_app. repeat split.
    + rewrite <- (Permutation_map id (Permutation_rev _)).
      now apply NoDup_ids_filter.
    + intros x Hx Hx'. rewrite list_elem_of_In in *.
      apply in_map_iff in Hx as (m & <- & Hm).
      apply in_rev, filter_In in Hm as [_ Hm].
      unfold acceptedLive in Hm. apply andb_true_iff in Hm as [_ Hm].
      apply negb_true_iff, has_false in Hm. apply Hm.
      unfold loadedMessageIds. apply elem_of_list_to_set.
      now apply list_elem_of_In.
    + exact Hl.
  - intros x Hx Hx'. rewrite list_elem_of_In in *.
    apply in_map_iff in Hx as (m & <- & Hm).
    apply in_map_iff in Hx' as (p & Hid & Hk).
    unfold pendingWithoutDuplicates in Hk. apply filter_In in Hk as [Hin Hk].
    unfold keepPending in Hk.
    destruct (status_eqb (status p) SUCCESS) eqn:Hs.
    + apply negb_true_iff in Hk.
      assert (Hr : hasRealMessage (combinedMessages loaded ws) p = true);
        [|congruence].
      apply hasRealMessage_spec. exists m. auto.
    + apply In_combinedMessages in Hm.
      apply (Hfresh p m Hin); [|tauto|congruence].
      intros Hs'. apply status_eqb_SUCCESS in Hs'. congruence.
  - now apply NoDup_ids_filter.
Qed.

(** C1: the reconciled sequence is to hold no message id twice, also when
    the same id occurs more than once inside the live buffer.  Here the
    live buffer holds one message twice (delivery is at least once), with
    an empty history window, outbox and tombstone set: both copies pass the
    check against the ids of the history window, and the output holds the
    id twice. *)
Theorem allMessages_repeats_live_duplicate :
  let m := textMessage "M1" "U2" "Hello" 1000 in
  allMessages [] [m; m] [] ∅ = [m; m]
  /\ ~ NoDup (List.map id (allMessages [] [m; m] [] ∅)).
Proof.
  intros m.
  assert (E : allMessages [] [m; m] [] ∅ = [m; m]) by (vm_compute; reflexivity).
  split; [exact E|].
  rewrite E. cbn [List.map]. intros H.
  apply NoDup_cons_1_1 in H. apply H. left.
Qed.

(** *** Order of the output *)

Lemma StronglySorted_impl_In {A} (R R' : A -> A -> Prop) l :
  (forall a b, In a l -> In b l -> R a b -> R' a b) ->
  StronglySorted R l -> StronglySorted R' l.
Proof.
  intros H Hs. induction Hs as [|a l Hs IH Ha]; constructor.
  - apply IH. intros b c Hb Hc. apply H; now right.
  - apply List.Forall_forall. intros b Hb.
    apply H; [now left|now right|].
    now apply (proj1 (List.Forall_forall _ _) Ha).
Qed.

Lemma In_allCombined loaded ws pending deleted m :
  In m (allCombined loaded ws pending deleted) ->
  In m loaded \/ In m ws \/ In m pending.
Proof.
  unfold allCombined. intros H. apply filter_In in H as [H _].
  apply in_app_iff in H as [H|H].
  - apply In_combinedMessages in H. tauto.
  - apply filter_In in H. tauto.
Qed.

(** On dated messages the comparator has the sign of the difference of
    the time values. *)
Lemma compareFn_dated a b :
  getTime a <> None -> getTime b <> None ->
  (SortCompare (compareFn a b) <=? 0) = (descending instant a b <=? 0).
Proof.
  unfold compareFn, descending, instant.
  destruct (getTime a), (getTime b); cbn; try congruence.
  intros _ _. apply JsFacts.toDouble_leb_0.
Qed.

Lemma allMessages_dated loaded ws pending deleted :
  (forall m, In m loaded \/ In m ws \/ In m pending -> getTime m <> None) ->
  allMessages loaded ws pending deleted
  = Array_sort (descending instant) (allCombined loaded ws pending deleted).
Proof.
  intros H. unfold allMessages. apply Array_sort_ext.
  intros a b Ha Hb.
  apply compareFn_dated; apply H; eapply In_allCombined; eassumption.
Qed.

Lemma createdAtIs_dated t m :
  getTime m <> None -> createdAtIs t m = at_time instant t m.
Proof.
  unfold createdAtIs, at_time, instant. intros H.
  destruct (getTime m) as [u|]; [|congruence]. cbn.
  destruct (Z.eqb_spec u t) as [->|Hn].
  - now apply bool_decide_eq_true.
  - apply bool_decide_eq_false. congruence.
Qed.

Lemma filter_ext_In {A} (f g : A -> bool) l :
  (forall a, In a l -> f a = g a) -> List.filter f l = List.filter g l.
Proof.
  induction l as [|a l IH]; intros H; [reflexivity|].
  cbn [List.filter]. rewrite (H a (or_introl eq_refl)), IH; [reflexivity|].
  intros b Hb. apply H. now right.
Qed.

Lemma allMessages_newest_first loaded ws pending deleted :
  (forall m, In m loaded \/ In m ws \/ In m pending -> getTime m <> None) ->
  StronglySorted notOlder (allMessages loaded ws pending deleted).
Proof.
  intros H.
  assert (Hd : forall m, In m (allCombined loaded ws pending deleted) ->
                         getTime m <> None).
  { intros m Hm. apply H. eapply In_allCombined. exact Hm. }
  rewrite (allMessages_dated _ _ _ _ H).
  apply (StronglySorted_impl_In (newerFirst instant));
    [|apply Array_sort_sorted].
  intros a b Ha Hb. unfold newerFirst, notOlder, instant.
  apply (proj1 (Array_sort_In _ _ _)), Hd in Ha.
  apply (proj1 (Array_sort_In _ _ _)), Hd in Hb.
  destruct (getTime a) as [ta|]; [|congruence].
  destruct (getTime b) as [tb|]; [|congruence].
  cbn. intros Hle. now exists ta, tb.
Qed.

(** C8, as the code has it: when every [createdAt] of the inputs is a
    date, the output is sorted by [createdAt], newest first; it is a
    rearrangement of the combined sequence (the accepted live messages,
    latest arrival first, then the history window in its order, then the
    kept outbox entries in theirs, all without the tombstoned ids), and
    entries with equal [createdAt] keep the order they have in that
    sequence: ids play no part in the order. *)
Theorem allMessages_sorted_stable loaded ws pending deleted :
  (forall m, In m loaded \/ In m ws \/ In m pending -> getTime m <> None) ->
  let live := rev (List.filter (acceptedLive loaded) ws) in
  let kept := pendingWithoutDuplicates (live ++ loaded) pending in
  let sequence :=
    List.filter (fun msg => negb (has deleted (id msg)))
      (live ++ loaded ++ kept) in
  StronglySorted notOlder (allMessages loaded ws pending deleted)
  /\ Permutation (allMessages loaded ws pending deleted) sequence
  /\ forall t,
      List.filter (createdAtIs t) (allMessages loaded ws pending deleted)
      = List.filter (createdAtIs t) sequence.
Proof.
  intros H live kept sequence.
  assert (E : sequence = allCombined loaded ws pending deleted).
  { unfold sequence, kept, live, allCombined.
    now rewrite combinedMessages_eq, <- app_assoc. }
  assert (Hd : forall m, In m (allCombined loaded ws pending deleted) ->
                         getTime m <> None).
  { intros m Hm. apply H. eapply In_allCombined. exact Hm. }
  split; [now apply allMessages_newest_first|].
  rewrite E, (allMessages_dated _ _ _ _ H). split.
  - apply Array_sort_Permutation.
  - intros t.
    rewrite (filter_ext_In (createdAtIs t) (at_time instant t)
               (Array_sort _ _)).
    + rewrite (filter_ext_In (createdAtIs t) (at_time instant t)
                 (allCombined _ _ _ _)).
      * apply Array_sort_stable.
      * intros a Ha. apply createdAtIs_dated. now apply Hd.
    + intros a Ha. apply createdAtIs_dated.
      apply (proj1 (Array_sort_In _ _ _)) in Ha. now apply Hd.
Qed.

(** Two live messages and an outbox entry of one instant around a newer
    message of the history window: the newer one comes first, the three
    keep the order of the combined sequence. *)
Lemma allMessages_sorted_stable_witness :
  let a := textMessage "A" "U1" "first" 1000 in
  let b := textMessage "B" "U2" "second" 1000 in
  let c := textMessage "C" "U2" "third" 3000 in
  let p := sentMessage "P" "U1" "fourth" 1000 in
  (forall m, In m [c] \/ In m [a; b] \/ In m [p] -> getTime m <> None)
  /\ allMessages [c] [a; b] [p] ∅ = [c; b; a; p]
  /\ List.filter (createdAtIs 1000) (allMessages [c] [a; b] [p] ∅) = [b; a; p].
Proof.
  intros a b c p.
  assert (H : forall m, In m [c] \/ In m [a; b] \/ In m [p] ->
                        getTime m <> None).
  { intros m [[<-|[]]|[[<-|[<-|[]]]|[<-|[]]]]; discriminate. }
  split; [exact H|]. split; [vm_compute; reflexivity|].
  rewrite (proj2 (proj2 (allMessages_sorted_stable [c] [a; b] [p] ∅ H)) 1000).
  vm_compute. reflexivity.
Defined.

(** C8 as stated fails on ties: two messages with the same [createdAt] come
    out in the order they came in, whichever id is smaller, so the same set
    of messages gives two different outputs. *)
Lemma allMessages_ties_keep_input_order :
  let a := textMessage "A" "U1" "first" 1000 in
  let b := textMessage "B" "U2" "second" 1000 in
  allMessages [a; b] [] [] ∅ = [a; b]
  /\ allMessages [b; a] [] [] ∅ = [b; a].
Proof.
  intros a b. split; vm_compute; reflexivity.
Qed.

(** A [createdAt] that is no date makes the comparator answer NaN against
    every other message, which the sort takes for "equal": here the
    message of instant 1000 stays in front of the one of instant 3000. *)
Lemma allMessages_undated_not_sorted :
  let a := textMessage "A" "U1" "first" 1000 in
  let b := spread (textMessage "B" "U2" "second" 0) [F_createdAt None] in
  let c := textMessage "C" "U2" "third" 3000 in
  allMessages [a; b; c] [] [] ∅ = [a; b; c]
  /\ getTime a = Some 1000 /\ getTime b = None /\ getTime c = Some 3000
  /\ ~ notOlder a c.
Proof.
  intros a b c.
  split; [vm_compute; reflexivity|].
  split; [reflexivity|]. split; [reflexivity|]. split; [reflexivity|].
  intros (ta & tc & Ha & Hc & Hle).
  inversion Ha; inversion Hc; subst. lia.
Qed.

(** *** Handlers *)

Section HandlerFacts.
Variable convertEmojiToText : jsstring -> jsstring.
Variable ctx : ChatContext.

Lemma handleSendMessage_tombstones st uuid now api :
  deletedMessages (fst (run (handleSendMessage convertEmojiToText ctx st uuid now) api st))
  = deletedMessages st.
Proof.
  unfold handleSendMessage.
  destruct (negb (truthy (trim (messageText st)))); [reflexivity|].
  cbn [run]. destruct (api _) as [d|]; [|reflexivity].
  cbn [run]. unfold setPendingMessagesOrThrow.
  destruct (mapM _ _); reflexivity.
Qed.

Lemma handleEditMessage_tombstones st messageId api :
  deletedMessages (fst (run (handleEditMessage ctx st messageId) api st))
  = deletedMessages st.
Proof.
  unfold handleEditMessage.
  destruct (negb (truthy (trim (editingText st)))); [reflexivity|].
  cbn [run]. destruct (api _) as [[d|]|]; reflexivity.
Qed.

Lemma handleDeleteMessage_tombstones st messageId api :
  deletedMessages st
  ⊆ deletedMessages (fst (run (handleDeleteMessage ctx messageId) api st)).
Proof.
  unfold handleDeleteMessage. cbn [run].
  destruct (api _) as [d|]; cbn; set_solver.
Qed.

Lemma perform_tombstones st a :
  deletedMessages st ⊆ deletedMessages (perform convertEmojiToText ctx st a).
Proof.
  destruct a as [[uuid now|messageId|messageId|] api]; unfold perform;
    cbn [fst snd handlerOf].
  - now rewrite handleSendMessage_tombstones.
  - now rewrite handleEditMessage_tombstones.
  - apply handleDeleteMessage_tombstones.
  - reflexivity.
Qed.

Lemma performAll_tombstones l st :
  deletedMessages st ⊆ deletedMessages (performAll convertEmojiToText ctx st l).
Proof.
  revert st. induction l as [|a l IH]; intros st; cbn; [reflexivity|].
  etransitivity; [apply perform_tombstones|apply IH].
Qed.

(** C3: once the delete of [messageId] has succeeded, the id is in the
    tombstone set, it stays there through every later send, edit, delete
    and reconnect, and a reconciliation with the tombstone set of any later state
    holds no entry with that id, whatever the history window, the live
    buffer and the outbox hold then. *)
Theorem deleted_message_stays_out st messageId api data :
  api (DeleteMessage (props_courseId ctx) messageId) = Fulfilled data ->
  let st1 := fst (run (handleDeleteMessage ctx messageId) api st) in
  messageId ∈ deletedMessages st1
  /\ forall later loaded ws pending m,
      let st2 := performAll convertEmojiToText ctx st1 later in
      In m (allMessages loaded ws pending (deletedMessages st2)) ->
      id m <> messageId.
Proof.
  intros Hapi st1.
  assert (H1 : messageId ∈ deletedMessages st1).
  { unfold st1, handleDeleteMessage. cbn [run]. rewrite Hapi. cbn. set_solver. }
  split; [exact H1|].
  intros later loaded ws pending m st2 Hm Heq.
  apply allMessages_not_deleted in Hm. apply Hm. rewrite Heq.
  now apply (performAll_tombstones later st1).
Qed.

(** C4: the delete handler issues its one request in a state whose history
    window, live buffer and tombstone set are those it started from; when
    the call succeeds the message is removed from the history window and
    from the live buffer and its id joins the tombstone set; when it fails
    the three are as before and an error is shown. *)
Theorem handleDeleteMessage_spec st messageId api :
  let req := DeleteMessage (props_courseId ctx) messageId in
  let result := run (handleDeleteMessage ctx messageId) api st in
  (exists snap,
      requests (snd result) = [(req, snap)]
      /\ loadedMessages snap = loadedMessages st
      /\ wsMessages snap = wsMessages st
      /\ deletedMessages snap = deletedMessages st)
  /\ match api req with
     | Fulfilled _ =>
         loadedMessages (fst result) = removeMessage messageId (loadedMessages st)
         /\ wsMessages (fst result) = removeWSMessage messageId (wsMessages st)
         /\ deletedMessages (fst result) = deletedMessages st ∪ {[messageId]}
         /\ (forall m, In m (loadedMessages (fst result)) -> id m <> messageId)
         /\ (forall m, In m (wsMessages (fst result)) -> id m <> messageId)
         /\ toasts (snd result) = []
     | Rejected =>
         loadedMessages (fst result) = loadedMessages st
         /\ wsMessages (fst result) = wsMessages st
         /\ deletedMessages (fst result) = deletedMessages st
         /\ toasts (snd result) = ["Failed to delete message. Please try again."%string]
     end.
Proof.
  intros req result. unfold result, handleDeleteMessage. cbn [run].
  fold req. split.
  - destruct (api req) as [d|]; cbn; eexists; repeat split.
  - destruct (api req) as [d|]; cbn; repeat split.
    + intros m Hm. unfold removeMessage in Hm. apply filter_In in Hm as [_ Hm].
      apply negb_true_iff, bool_decide_eq_false in Hm. exact Hm.
    + intros m Hm. unfold removeWSMessage in Hm. apply filter_In in Hm as [_ Hm].
      apply negb_true_iff, bool_decide_eq_false in Hm. exact Hm.
Qed.

Lemma updateInfiniteScrollMessage_content messageId text window m :
  In m (updateInfiniteScrollMessage messageId [F_content text] window) ->
  id m = messageId -> content m = text.
Proof.
  unfold updateInfiniteScrollMessage. intros Hm Hid.
  apply in_map_iff in Hm as (m0 & <- & _).
  destruct (bool_decide_reflect (id m0 = messageId)) as [_|Hne];
    [reflexivity|].
  contradiction.
Qed.

Lemma spread_fieldsOf m d : spread m (fieldsOf d) = overwrittenBy m d.
Proof.
  destruct d as [di [dt|] dc dx dy ds dn [du|] dr da [dst|]], m;
    reflexivity.
Qed.

Lemma updateInfiniteScrollMessage_twice messageId text d window :
  updateInfiniteScrollMessage messageId (fieldsOf d)
    (updateInfiniteScrollMessage messageId [F_content text] window)
  = List.map
      (fun m => if bool_decide (id m = messageId) then overwrittenBy m d else m)
      window.
Proof.
  unfold updateInfiniteScrollMessage. rewrite List.map_map.
  apply List.map_ext. intros m.
  destruct (bool_decide_reflect (id m = messageId)) as [Hid|Hid].
  - assert (E : id (spread m [F_content text]) = messageId) by exact Hid.
    rewrite (bool_decide_eq_true_2 _ E), !spread_fieldsOf.
    destruct m; reflexivity.
  - now rewrite (bool_decide_eq_false_2 _ Hid).
Qed.

(** C5: with an edit text that is not blank, the edit handler issues its
    one request in a state whose history window already carries the
    trimmed text on the message; when the call succeeds with a payload,
    every message of the window with the id is replaced by the payload
    laid over it (all fields of the payload, and of the old message only
    the optional ones the payload lacks), the others are untouched, and
    nothing is shown; when it succeeds without a payload the window stays
    as the first patch made it; when it fails an error is shown and the
    history window is left as the first patch made it, so the message
    keeps the edited text. *)
Theorem handleEditMessage_spec st messageId api :
  trim (editingText st) <> [] ->
  let text := trim (editingText st) in
  let req := UpdateMessage (props_courseId ctx) messageId (lit "TEXT") text in
  let optimistic :=
    updateInfiniteScrollMessage messageId [F_content text] (loadedMessages st) in
  let result := run (handleEditMessage ctx st messageId) api st in
  (exists snap,
      requests (snd result) = [(req, snap)]
      /\ loadedMessages snap = optimistic
      /\ (forall m, In m (loadedMessages snap) ->
                    id m = messageId -> content m = text))
  /\ match api req with
     | Fulfilled (Some d) =>
         loadedMessages (fst result)
         = updateInfiniteScrollMessage messageId (fieldsOf d) optimistic
         /\ loadedMessages (fst result)
            = List.map
                (fun m =>
                   if bool_decide (id m = messageId)
                   then
                     {| id := id d;
                        tempId := match tempId d with
                                  | Some v => Some v
                                  | None => tempId m
                                  end;
                        courseId := courseId d;
                        content := content d;
                        type := type d;
                        senderId := senderId d;
                        senderName := senderName d;
                        senderThumbnailUrl :=
                          match senderThumbnailUrl d with
                          | Some v => Some v
                          | None => senderThumbnailUrl m
                          end;
                        senderRole := senderRole d;
                        createdAt := createdAt d;
                        status := match status d with
                                  | Some v => Some v
                                  | None => status m
                                  end |}
                   else m)
                (loadedMessages st)
         /\ toasts (snd result) = []
     | Fulfilled None =>
         loadedMessages (fst result) = optimistic
         /\ toasts (snd result) = []
     | Rejected =>
         loadedMessages (fst result) = optimistic
         /\ (forall m, In m (loadedMessages (fst result)) ->
                       id m = messageId -> content m = text)
         /\ toasts (snd result) = ["Failed to update message. Please try again."%string]
     end.
Proof.
  intros Hne. cbv zeta. unfold handleEditMessage.
  destruct (trim (editingText st)) as [|c r]; [contradiction|].
  cbn [truthy negb]. cbn [run].
  split.
  - destruct (api _) as [[d|]|]; cbn; eexists;
      (split; [reflexivity|]); (split; [reflexivity|]);
      intros m Hm Hid;
      now apply (updateInfiniteScrollMessage_content messageId (c :: r)
                   (loadedMessages st)).
  - destruct (api _) as [[d|]|]; cbn.
    + split; [reflexivity|]. split; [|reflexivity].
      apply updateInfiniteScrollMessage_twice.
    + split; reflexivity.
    + split; [reflexivity|]. split; [|reflexivity].
      intros m Hm Hid.
      now apply (updateInfiniteScrollMessage_content messageId (c :: r)
                   (loadedMessages st)).
Qed.

(** C10: with a draft that is empty or all white space, the send handler
    does nothing: the state is returned as it was (no outbox entry, no
    other change) and nothing is requested or shown. *)
Theorem handleSendMessage_blank_noop st uuid now api :
  blank (messageText st) ->
  run (handleSendMessage convertEmojiToText ctx st uuid now) api st = (st, []).
Proof.
  intros Hb. unfold handleSendMessage.
  now rewrite (proj2 (JsFacts.not_truthy_trim _) Hb).
Qed.

End HandlerFacts.

(** The delete of M1 succeeds; M1 comes back in a page and in the live
    buffer. *)
Lemma deleted_message_stays_out_witness :
  let api := fun _ : Request => Fulfilled None in
  let st1 := fst (run (handleDeleteMessage exampleContext (lit "M1")) api exampleState) in
  api (DeleteMessage (props_courseId exampleContext) (lit "M1")) = Fulfilled None
  /\ lit "M1" ∈ deletedMessages st1
  /\ forall m,
      In m (allMessages (loadedMessages exampleState) (wsMessages exampleState) []
              (deletedMessages st1)) ->
      id m <> lit "M1".
Proof.
  intros api st1. split; [reflexivity|].
  destruct (deleted_message_stays_out (fun text => text) exampleContext
              exampleState (lit "M1") api None eq_refl) as [H1 H2].
  split; [exact H1|].
  intros m Hm. exact (H2 [] _ _ _ m Hm).
Defined.

(** An edit of M1 that the server accepts, answering with the message as
    it stores it (the text cleaned up, a later [createdAt]), and the same
    edit refused. *)
Lemma handleEditMessage_spec_witness :
  let d := textMessage "M1" "U1" "Hello again!" 2000 in
  let accepted := fun _ : Request => Fulfilled (Some d) in
  let refused := fun _ : Request => Rejected in
  let edit := handleEditMessage exampleContext exampleState (lit "M1") in
  trim (editingText exampleState) <> []
  /\ loadedMessages (fst (run edit accepted exampleState)) = [d]
  /\ toasts (snd (run edit accepted exampleState)) = []
  /\ List.map content (loadedMessages (fst (run edit refused exampleState)))
     = [lit "Hello again"]
  /\ toasts (snd (run edit refused exampleState))
     = ["Failed to update message. Please try again."%string].
Proof.
  intros d accepted refused edit.
  assert (Hne : trim (editingText exampleState) <> []) by (vm_compute; discriminate).
  split; [exact Hne|].
  destruct (handleEditMessage_spec exampleContext exampleState (lit "M1")
              accepted Hne) as [_ (_ & A2 & A3)].
  destruct (handleEditMessage_spec exampleContext exampleState (lit "M1")
              refused Hne) as [_ (R1 & _ & R3)].
  split; [|split; [exact A3|split; [|exact R3]]].
  - fold edit in A2. rewrite A2. vm_compute. reflexivity.
  - fold edit in R1. rewrite R1. vm_compute. reflexivity.
Defined.

(** A draft of three spaces. *)
Lemma handleSendMessage_blank_noop_witness :
  let st := setMessageText (lit "   ") exampleState in
  blank (messageText st)
  /\ run (handleSendMessage (fun text => text) exampleContext st (lit "tmp-1") 5000)
       (fun _ => Rejected) st = (st, []).
Proof.
  intros st.
  assert (Hb : blank (messageText st)) by (repeat constructor).
  split; [exact Hb|].
  exact (handleSendMessage_blank_noop (fun text => text) exampleContext st
           (lit "tmp-1") 5000 (fun _ => Rejected) Hb).
Defined.

End ChatProperties.

(** ** The transport session *)

Module WebSocketServiceProperties.

Import WebSocketService.

(** *** Quiet steps *)

Lemma disconnections_app l1 l2 :
  disconnections (l1 ++ l2) = disconnections l1 + disconnections l2.
Proof.
  unfold disconnections. rewrite List.filter_app, length_app. lia.
Qed.

Lemma quiet_refl w : quiet w w.
Proof.
  unfold quiet. repeat split; auto.
  exists []. split; [now rewrite app_nil_r|reflexivity].
Qed.

Lemma quiet_trans w1 w2 w3 : quiet w1 w2 -> quiet w2 w3 -> quiet w1 w3.
Proof.
  intros ((L1 & E1 & D1) & T1 & A1 & H1 & C1) ((L2 & E2 & D2) & T2 & A2 & H2 & C2).
  unfold quiet. repeat split.
  - exists (L1 ++ L2). split.
    + now rewrite E2, E1, app_assoc.
    + rewrite disconnections_app. lia.
  - congruence.
  - congruence.
  - auto.
  - destruct C2 as [C2|C2]; [|now right].
    rewrite C2. exact C1.
Qed.

Lemma quiet_emit e w : isDisconnection e = false -> quiet w (emit e w).
Proof.
  intros He. unfold quiet, emit; cbn. repeat split; auto.
  exists [e]. split; [reflexivity|].
  unfold disconnections. cbn. now rewrite He.
Qed.

Lemma quiet_setThis f w :
  reconnectAttempts (f (this w)) = reconnectAttempts (this w) ->
  (isConnected (f (this w)) = isConnected (this w)
   \/ isConnected (f (this w)) = false) ->
  quiet w (setThis f w).
Proof.
  intros Ha Hc. unfold quiet, setThis; cbn. repeat split; auto.
  exists []. split; [now rewrite app_nil_r|reflexivity].
Qed.

Lemma quiet_setPromises f w : quiet w (setPromises f w).
Proof.
  unfold quiet, setPromises; cbn. repeat split; auto.
  exists []. split; [now rewrite app_nil_r|reflexivity].
Qed.

Lemma quiet_setTasks f w : quiet w (setTasks f w).
Proof.
  unfold quiet, setTasks; cbn. repeat split; auto.
  exists []. split; [now rewrite app_nil_r|reflexivity].
Qed.

Lemma quiet_newClient cl w :
  onDisconnect cl = AutoReconnect ->
  quiet w (setClients (fun l => l ++ [cl]) w).
Proof.
  intros Hcl. unfold quiet, setClients, allAuto; cbn. repeat split; auto.
  - exists []. split; [now rewrite app_nil_r|reflexivity].
  - intros H. apply Forall_app. split; [exact H|].
    constructor; [exact Hcl|constructor].
Qed.

Lemma map_delay_fired (l : list Timer) t tm :
  l !! t = Some tm ->
  List.map delay (<[t := {| delay := delay tm; fired := true |}]> l)
  = List.map delay l.
Proof.
  revert t. induction l as [|x l IH]; intros [|t] H; cbn in *; try discriminate.
  - now inversion H.
  - f_equal. now apply IH.
Qed.

Lemma quiet_fired t tm w :
  timers w !! t = Some tm ->
  quiet w (setTimers (fun l => <[t := {| delay := delay tm; fired := true |}]> l) w).
Proof.
  intros Ht. unfold quiet, setTimers; cbn. repeat split; auto.
  - exists []. split; [now rewrite app_nil_r|reflexivity].
  - now apply map_delay_fired.
Qed.

Lemma quiet_reaction s w : quiet w (reaction s w).
Proof.
  unfold reaction. destruct s; [apply quiet_refl| |now apply quiet_emit].
  destruct (config (this w)); [now apply quiet_emit|apply quiet_refl].
Qed.

Lemma quiet_settle p s w : quiet w (settle p s w).
Proof.
  unfold settle.
  destruct (promises w !! p) as [pr|]; [|apply quiet_refl].
  destruct (state pr); try apply quiet_refl.
  destruct (chained pr); [|apply quiet_setPromises].
  eapply quiet_trans; [apply quiet_setPromises|apply quiet_reaction].
Qed.

Lemma quiet_connect cfg setup chain w : quiet w (connect cfg setup chain w).
Proof.
  unfold connect.
  destruct setup as [|error].
  - eapply quiet_trans; [|now apply quiet_emit].
    eapply quiet_trans; [|now apply quiet_setThis; auto].
    eapply quiet_trans; [|now apply quiet_newClient].
    eapply quiet_trans; [|now apply quiet_setThis; auto].
    eapply quiet_trans; [|now apply quiet_setThis; auto].
    apply quiet_setPromises.
  - eapply quiet_trans; [|apply quiet_settle].
    eapply quiet_trans; [|now apply quiet_emit].
    eapply quiet_trans; [|now apply quiet_setThis; auto].
    eapply quiet_trans; [|now apply quiet_setThis; auto].
    apply quiet_setPromises.
Qed.

Lemma quiet_onStompError c message w : quiet w (onStompError c message w).
Proof.
  unfold onStompError.
  destruct (clients w !! c) as [cl|]; [|apply quiet_refl].
  eapply quiet_trans; [|apply quiet_settle].
  eapply quiet_trans; [|now apply quiet_emit].
  eapply quiet_trans; [|now apply quiet_setThis; auto].
  now apply quiet_emit.
Qed.

Lemma quiet_onWebSocketError c w : quiet w (onWebSocketError c w).
Proof.
  unfold onWebSocketError.
  destruct (clients w !! c) as [cl|]; [|apply quiet_refl].
  eapply quiet_trans; [|now apply quiet_emit].
  now apply quiet_emit.
Qed.

Lemma quiet_timerFires t setup w : quiet w (timerFires t setup w).
Proof.
  unfold timerFires.
  destruct (timers w !! t) as [tm|] eqn:Ht; [|apply quiet_refl].
  destruct (fired tm); [apply quiet_refl|].
  match goal with
  | |- quiet _ (match config (this ?w1) with _ => _ end) =>
      assert (Hq : quiet w w1) by now apply quiet_fired
  end.
  destruct (config (this _)) as [cfg|]; [|exact Hq].
  eapply quiet_trans; [exact Hq|apply quiet_connect].
Qed.

Lemma quiet_subscribeResumes t probes throws w :
  quiet w (subscribeResumes t probes throws w).
Proof.
  unfold subscribeResumes.
  destruct (tasks w !! t) as [task|]; [|apply quiet_refl].
  destruct (taskDone task); [apply quiet_refl|].
  destruct (waitForStompConnected _ _ _) as [[|]|]; cbn [negb];
    [| |apply quiet_refl].
  - match goal with
    | |- quiet _ (match client (this ?w1) with _ => _ end) =>
        assert (Hq : quiet w w1) by apply quiet_setTasks
    end.
    destruct (client (this _)) as [c|].
    + destruct throws.
      * eapply quiet_trans; [exact Hq|now apply quiet_emit].
      * eapply quiet_trans; [|now apply quiet_setThis; auto].
        eapply quiet_trans; [exact Hq|now apply quiet_emit].
    + eapply quiet_trans; [exact Hq|now apply quiet_emit].
  - eapply quiet_trans; [apply quiet_setTasks|now apply quiet_emit].
Qed.

Lemma quiet_subscribeToMessages courseId now w :
  quiet w (subscribeToMessages courseId now w).
Proof.
  unfold subscribeToMessages.
  destruct (client (this w)); [apply quiet_setTasks|now apply quiet_emit].
Qed.

(** *** Automatic reconnection *)

Lemma autoReconnect_spec w :
  let a := reconnectAttempts (this w) in
  let w1 := autoReconnect w in
  log w1 = log w ++ [Callback_onDisconnect]
  /\ isConnected (this w1) = false
  /\ clients w1 = clients w
  /\ List.map delay (timers w1)
     = List.map delay (timers w) ++ (if a <? 5 then [5000 * (a + 1)] else [])
  /\ reconnectAttempts (this w1) = (if a <? 5 then a + 1 else a).
Proof.
  unfold autoReconnect, maxReconnectAttempts. cbn.
  destruct (reconnectAttempts (this w) <? 5); cbn; repeat split.
  - now rewrite List.map_app.
  - now rewrite app_nil_r.
Qed.





Lemma onConnect_resets w c now :
  is_Some (clients w !! c) ->
  reconnectAttempts (this (onConnect c now w)) = 0.
Proof.
  intros [cl Hcl]. unfold onConnect. rewrite Hcl.
  match goal with
  | |- reconnectAttempts (this (settle ?p ?s ?w1)) = _ =>
      destruct (quiet_settle p s w1) as (_ & _ & -> & _)
  end.
  match goal with
  | |- reconnectAttempts (this (emit ?e ?w1)) = _ =>
      change (reconnectAttempts (this w1) = 0)
  end.
  match goal with
  | |- reconnectAttempts (this (subscribeToMessages ?i ?n ?w1)) = _ =>
      destruct (quiet_subscribeToMessages i n w1) as (_ & _ & -> & _)
  end.
  reflexivity.
Qed.





(** *** The promise of connect *)

Lemma reaction_frame s w :
  this (reaction s w) = this w /\ promises (reaction s w) = promises w
  /\ clients (reaction s w) = clients w.
Proof.
  unfold reaction. destruct s; auto.
  destruct (config (this w)); auto.
Qed.

Lemma settle_frame p s w :
  this (settle p s w) = this w /\ clients (settle p s w) = clients w.
Proof.
  unfold settle.
  destruct (promises w !! p) as [pr|]; auto.
  destruct (state pr); auto.
  destruct (chained pr); auto.
  match goal with
  | |- this (reaction s ?w1) = _ /\ _ =>
      destruct (reaction_frame s w1) as (-> & _ & ->)
  end.
  auto.
Qed.

Lemma settle_tasks p s w : tasks (settle p s w) = tasks w.
Proof.
  unfold settle.
  destruct (promises w !! p) as [pr|]; auto.
  destruct (state pr); auto.
  destruct (chained pr); auto.
  unfold reaction. destruct s; auto.
  cbn. destruct (config (this w)); auto.
Qed.

Lemma settle_pending p s w :
  promiseState p w = Some Pending -> promiseState p (settle p s w) = Some s.
Proof.
  unfold promiseState, settle. intros H.
  destruct (promises w !! p) as [pr|] eqn:Hp; [|discriminate].
  cbn in H. injection H as H. rewrite H.
  assert (Hlt : (p < length (promises w))%nat) by (eapply lookup_lt_Some; eauto).
  destruct (chained pr).
  - match goal with
    | |- state <$> promises (reaction s ?w1) !! p = _ =>
        destruct (reaction_frame s w1) as (_ & -> & _)
    end.
    cbn. now rewrite list_lookup_insert_eq.
  - cbn. now rewrite list_lookup_insert_eq.
Qed.

Lemma subscribeToMessages_frame courseId now w :
  promises (subscribeToMessages courseId now w) = promises w
  /\ subscription (this (subscribeToMessages courseId now w))
     = subscription (this w).
Proof.
  unfold subscribeToMessages. destruct (client (this w)); auto.
Qed.

Lemma settle_log p s w pr :
  promises w !! p = Some pr -> state pr = Pending ->
  log (settle p s w)
  = log w
    ++ (if chained pr then
          match s with
          | Resolved =>
              match config (this w) with
              | Some _ => [Callback_onReconnect]
              | None => []
              end
          | RejectedWith _ => [Notify "Reconnection failed. Please try again."]
          | Pending => []
          end
        else []).
Proof.
  intros Hp Hs. unfold settle. rewrite Hp, Hs.
  destruct (chained pr); [|now rewrite app_nil_r].
  destruct s; cbn; [now rewrite app_nil_r| |reflexivity].
  destruct (config (this w)); cbn; [reflexivity|now rewrite app_nil_r].
Qed.

(** C7, as the code has it: the promise of a connect call is resolved by
    the connect callback of its client, at which point the subscription has
    only been set going (a wait is started, the subscription of the
    service is what it was before).  It is rejected by a STOMP error
    frame with the [message] header of the frame as the reason (a fixed
    text when the header is missing or empty), after an error notification
    and the owner's [onError]; and at once, with the exception as the
    reason and after an error notification, when building the client
    throws; a rejected promise of a reconnection attempt shows one more
    notification.  A WebSocket error shows a notification and calls
    [onError] but changes no promise: the promise stays pending.  A wait
    for the subscription that gives up after five seconds changes no
    promise and subscribes to nothing: it only shows an error. *)
Theorem connect_promise_settlement w c cl :
  clients w !! c = Some cl ->
  promiseState (connectPromise cl) w = Some Pending ->
  (forall now,
      promiseState (connectPromise cl) (onConnect c now w) = Some Resolved
      /\ subscription (this (onConnect c now w)) = subscription (this w)
      /\ (is_Some (client (this w)) ->
          tasks (onConnect c now w)
          = tasks w ++ [{| taskCourseId := courseId (clientConfig cl);
                           taskStart := now; taskDone := false |}]))
  /\ (forall message pr,
        promises w !! connectPromise cl = Some pr ->
        promiseState (connectPromise cl) (onStompError c message w)
        = Some (RejectedWith
                  match message with
                  | Some m =>
                      if truthy m then m else lit "WebSocket connection failed"
                  | None => lit "WebSocket connection failed"
                  end)
        /\ logSince w (onStompError c message w)
           = [Notify "WebSocket connection error. Please try again.";
              Callback_onError]
             ++ (if chained pr
                 then [Notify "Reconnection failed. Please try again."]
                 else []))
  /\ (promiseState (connectPromise cl) (onWebSocketError c w) = Some Pending
      /\ promises (onWebSocketError c w) = promises w
      /\ this (onWebSocketError c w) = this w
      /\ logSince w (onWebSocketError c w)
         = [Notify "WebSocket error. Please try again."; Callback_onError])
  /\ (forall t task probes throws,
        tasks w !! t = Some task ->
        taskDone task = false ->
        waitForStompConnected 5000 (taskStart task) probes = Some false ->
        promises (subscribeResumes t probes throws w) = promises w
        /\ subscription (this (subscribeResumes t probes throws w))
           = subscription (this w)
        /\ logSince w (subscribeResumes t probes throws w)
           = [Notify "STOMP client not connected after wait - cannot subscribe"])
  /\ (forall cfg chain error,
        promiseState (length (promises w)) (connect cfg (SetupThrows error) chain w)
        = Some (RejectedWith error)
        /\ logSince w (connect cfg (SetupThrows error) chain w)
           = [Notify "Error connecting to WebSocket. Please try again."]
             ++ (if chain
                 then [Notify "Reconnection failed. Please try again."]
                 else []))
  /\ (forall cfg chain,
        promiseState (length (promises w)) (connect cfg SetupOk chain w)
        = Some Pending).
Proof.
  intros Hc Hp. repeat apply conj.
  - intros now. unfold onConnect. rewrite Hc. split; [|split].
    + apply settle_pending. unfold promiseState in *. cbn.
      now destruct (subscribeToMessages_frame (courseId (clientConfig cl)) now
                      (setThis (setReconnectAttempts 0)
                         (setThis (setIsConnected true) w))) as [-> _].
    + match goal with
      | |- subscription (this (settle ?p ?s ?w1)) = _ =>
          destruct (settle_frame p s w1) as [-> _]
      end.
      cbn.
      now destruct (subscribeToMessages_frame (courseId (clientConfig cl)) now
                      (setThis (setReconnectAttempts 0)
                         (setThis (setIsConnected true) w))) as [_ ->].
    + intros [c0 Hc0].
      match goal with
      | |- tasks (settle ?p ?s ?w1) = _ =>
          rewrite (settle_tasks p s w1)
      end.
      unfold subscribeToMessages. cbn. rewrite Hc0. reflexivity.
  - intros message pr Hpr.
    assert (Hs : state pr = Pending).
    { unfold promiseState in Hp. rewrite Hpr in Hp. cbn in Hp. congruence. }
    unfold onStompError. rewrite Hc. split.
    + destruct message as [m|]; cbn [orNull]; [destruct (truthy m)|];
        apply settle_pending; exact Hp.
    + unfold logSince.
      match goal with
      | |- context [settle ?p ?s ?w1] =>
          rewrite (settle_log p s w1 pr Hpr Hs)
      end.
      cbn [log emit setThis]. rewrite <- !app_assoc. apply drop_app_length.
  - unfold onWebSocketError. rewrite Hc. exact Hp.
  - unfold onWebSocketError. rewrite Hc. reflexivity.
  - unfold onWebSocketError. rewrite Hc. reflexivity.
  - unfold onWebSocketError, logSince. rewrite Hc. cbn.
    rewrite <- app_assoc. apply drop_app_length.
  - intros t task probes throws Ht Hd Hwait.
    unfold subscribeResumes, logSince. rewrite Ht, Hd, Hwait. cbn.
    repeat split. apply drop_app_length.
  - intros cfg chain error. split.
    + unfold connect.
      apply settle_pending. unfold promiseState. cbn.
      now rewrite lookup_app_r, Nat.sub_diag.
    + unfold connect, logSince.
      match goal with
      | |- context [settle ?p ?s ?w1] =>
          rewrite (settle_log p s w1 {| state := Pending; chained := chain |});
            [| cbn; now rewrite lookup_app_r, Nat.sub_diag | reflexivity]
      end.
      cbn [log emit setThis setPromises chained].
      rewrite <- app_assoc. apply drop_app_length.
  - intros cfg chain. unfold connect, promiseState. cbn.
    now rewrite lookup_app_r, Nat.sub_diag.
Qed.

(** The session after a first connect call, before any callback; a STOMP
    error frame that says why. *)
Lemma connect_promise_settlement_witness :
  let w := connect exampleConfig SetupOk false init in
  promiseState 0 (onConnect 0 1000 w) = Some Resolved
  /\ subscription (this (onConnect 0 1000 w)) = None
  /\ promiseState 0 (onStompError 0 (Some (lit "Bad token")) w)
     = Some (RejectedWith (lit "Bad token"))
  /\ promiseState 0 (onWebSocketError 0 w) = Some Pending
  /\ logSince w (onWebSocketError 0 w)
     = [Notify "WebSocket error. Please try again."; Callback_onError].
Proof.
  intros w.
  destruct (connect_promise_settlement w 0
              {| clientConfig := exampleConfig; connectPromise := 0;
                 onDisconnect := AutoReconnect |} eq_refl eq_refl)
    as (H1 & H2 & (H3 & _ & _ & H4) & _).
  destruct (H1 1000) as (H1a & H1b & _).
  destruct (H2 (Some (lit "Bad token"))
              {| state := Pending; chained := false |} eq_refl) as [H2a _].
  split; [exact H1a|]. split; [exact H1b|]. split; [exact H2a|].
  split; [exact H3|exact H4].
Defined.

(** C7 as stated fails: after a WebSocket error the promise is still
    pending (it never fails); the connect callback resolves it while the
    service has no subscription; and when the wait for the subscription
    then gives up after five seconds, the promise stays resolved and there
    is still no subscription. *)
Lemma connect_resolves_without_subscription :
  let w := connect exampleConfig SetupOk false init in
  let w1 := onConnect 0 1000 w in
  let w2 := subscribeResumes 0 [(1000, false); (3500, false); (6001, false)] false w1 in
  promiseState 0 (onWebSocketError 0 w) = Some Pending
  /\ promiseState 0 w1 = Some Resolved
  /\ subscription (this w1) = None
  /\ promiseState 0 w2 = Some Resolved
  /\ subscription (this w2) = None
  /\ logSince w1 w2
     = [Notify "STOMP client not connected after wait - cannot subscribe"].
Proof.
  vm_compute. repeat split.
Qed.

(** The wait is bounded: when no check runs early, the fifty-second check
    at the latest settles it. *)
Lemma waitForStompConnected_settles start :
  forall probes k,
    (k <= 51)%nat ->
    (52 <= k + length probes)%nat ->
    (forall i now connected,
        probes !! i = Some (now, connected) ->
        start + intervalMs * Z.of_nat (k + i) <= now) ->
    is_Some (waitForStompConnected 5000 start probes).
Proof.
  unfold intervalMs.
  induction probes as [|[now connected] probes IH]; intros k Hk Hl Hp.
  - cbn in Hl. lia.
  - cbn [waitForStompConnected].
    destruct connected; [eexists; reflexivity|].
    pose proof (Hp 0%nat now false eq_refl) as H0.
    destruct (Z.gtb_spec (now - start) 5000) as [Hgt|Hle];
      [eexists; reflexivity|].
    apply (IH (S k)).
    + lia.
    + cbn in Hl. lia.
    + intros i now' c' Hi. specialize (Hp (S i) now' c' Hi). lia.
Qed.

(** *** Teardown *)


(** C9: the session connects and the connection drops, which sets a
    reconnection timer; [disconnect()] then finds [isConnected] false and
    resolves at once, leaving the configuration in place and the timer
    armed; when the timer fires it connects again: a second client is
    created and activated for the session that was torn down. *)
Theorem disconnect_leaves_reconnect_timer :
  let w1 :=
    exec init [CallConnect exampleConfig SetupOk; ClientOnConnect 0 0;
               ClientOnDisconnect 0] in
  let w2 := step w1 CallDisconnect in
  let w3 := step w2 (TimerFires 0 SetupOk) in
  isConnected (this w1) = false
  /\ timers w1 = [{| delay := 5000; fired := false |}]
  /\ promiseState 1 w2 = Some Resolved
  /\ config (this w2) = Some exampleConfig
  /\ timers w2 = timers w1
  /\ length (clients w2) = 1%nat
  /\ length (clients w3) = 2%nat
  /\ logSince w2 w3 = [Activate 1].
Proof.
  vm_compute. repeat split.
Qed.

End WebSocketServiceProperties.

(** ** More on the Chat component *)

Module ChatExtras.

Import Chat ChatProperties.

(** *** What the reconciler lets through *)

Lemma acceptedLive_spec loaded m :
  acceptedLive loaded m = true
  <-> id m <> [] /\ ~ In (id m) (List.map id loaded).
Proof.
  unfold acceptedLive. rewrite andb_true_iff, negb_true_iff, has_false.
  unfold loadedMessageIds. rewrite elem_of_list_to_set, list_elem_of_In.
  assert (Ht : truthy (id m) = true <-> id m <> []).
  { destruct (id m); cbn; split; intros H; try discriminate; auto. }
  rewrite Ht. reflexivity.
Qed.

Lemma keepPending_spec combined p :
  keepPending combined p = true
  <-> (status p = Some SUCCESS ->
       ~ exists msg, In msg combined /\ (id msg = id p \/ fuzzyMatch p msg)).
Proof.
  unfold keepPending. rewrite <- hasRealMessage_spec.
  destruct (status_eqb (status p) SUCCESS) eqn:Hs.
  - apply status_eqb_SUCCESS in Hs.
    destruct (hasRealMessage combined p); cbn; split.
    + discriminate.
    + intros H. exfalso. now apply H.
    + intros _ _ H. discriminate.
    + reflexivity.
  - split; [|reflexivity].
    intros _ Hs'. apply status_eqb_SUCCESS in Hs'. congruence.
Qed.

Lemma allCombined_In loaded ws pending deleted m :
  In m (allCombined loaded ws pending deleted)
  <-> (id m ∉ deleted)
      /\ (In m loaded
          \/ (In m ws /\ id m <> [] /\ ~ In (id m) (List.map id loaded))
          \/ (In m pending
              /\ (status m = Some SUCCESS ->
                  ~ exists msg,
                      In msg (combinedMessages loaded ws)
                      /\ (id msg = id m \/ fuzzyMatch m msg)))).
Proof.
  unfold allCombined, pendingWithoutDuplicates.
  rewrite filter_In, negb_true_iff, has_false, in_app_iff, filter_In,
    In_combinedMessages, acceptedLive_spec, keepPending_spec.
  tauto.
Qed.

(** X1: a message is in the output exactly when its id is not tombstoned
    and it is a message of the history window, or a live message with a
    non-empty id that no message of the window has, or an outbox entry
    that is not a SUCCESS entry matched by the merged set. *)
Theorem allMessages_In loaded ws pending deleted m :
  In m (allMessages loaded ws pending deleted)
  <-> (id m ∉ deleted)
      /\ (In m loaded
          \/ (In m ws /\ id m <> [] /\ ~ In (id m) (List.map id loaded))
          \/ (In m pending
              /\ (status m = Some SUCCESS ->
                  ~ exists msg,
                      In msg (combinedMessages loaded ws)
                      /\ (id msg = id m \/ fuzzyMatch m msg)))).
Proof.
  unfold allMessages. rewrite (Array_sort_In _).
  apply allCombined_In.
Qed.

(** X2: nothing received is left out: a live message with a non-empty id
    that is not tombstoned has its id in the output, carried by a message
    of the history window when the window has that id and by the live
    message itself otherwise. *)
Theorem allMessages_covers_live loaded ws pending deleted m :
  In m ws -> id m <> [] -> id m ∉ deleted ->
  exists m',
    In m' (allMessages loaded ws pending deleted) /\ id m' = id m
    /\ (In m' loaded \/ (m' = m /\ ~ In (id m) (List.map id loaded))).
Proof.
  intros Hm Hid Hd.
  destruct (decide (id m ∈ List.map id loaded)) as [Hin|Hout];
    rewrite list_elem_of_In in *.
  - apply in_map_iff in Hin as (m' & Hid' & Hm').
    exists m'. split; [|split; [exact Hid'|left; exact Hm']].
    unfold allMessages. apply (Array_sort_In _), allCombined_In.
    split; [now rewrite Hid'|left; exact Hm'].
  - exists m. split; [|split; [reflexivity|right; auto]].
    unfold allMessages. apply (Array_sort_In _), allCombined_In.
    split; [exact Hd|right; left; auto].
Qed.

Lemma allMessages_covers_live_witness :
  let h := textMessage "M1" "U1" "Hello" 1000 in
  let l := textMessage "M1" "U1" "Hello (edited)" 1000 in
  In l [l] /\ id l <> [] /\ (id l ∉ (∅ : gset jsstring))
  /\ exists m', In m' (allMessages [h] [l] [] ∅) /\ id m' = id l
                /\ (In m' [h] \/ (m' = l /\ ~ In (id l) (List.map id [h]))).
Proof.
  intros h l.
  assert (H1 : In l [l]) by (left; reflexivity).
  assert (H2 : id l <> []) by (vm_compute; discriminate).
  assert (H3 : id l ∉ (∅ : gset jsstring)) by apply not_elem_of_empty.
  split; [exact H1|]. split; [exact H2|]. split; [exact H3|].
  exact (allMessages_covers_live [h] [l] [] ∅ l H1 H2 H3).
Defined.

(** X3: where the reconciler does keep ids apart (no id twice in the
    history window, in the live buffer or in the outbox, and the ids of the
    entries still PENDING or ERROR used by no other message), the output
    holds no id twice. *)
Theorem allMessages_distinct_ids loaded ws pending deleted :
  NoDup (List.map id loaded) ->
  NoDup (List.map id ws) ->
  NoDup (List.map id pending) ->
  (forall p m,
      In p pending -> status p <> Some SUCCESS ->
      In m loaded \/ In m ws -> id m <> id p) ->
  NoDup (List.map id (allMessages loaded ws pending deleted)).
Proof. apply allMessages_NoDup. Qed.

Lemma allMessages_distinct_ids_witness :
  let h := textMessage "M1" "U1" "Hello" 1000 in
  let l := textMessage "M2" "U2" "Hi" 2000 in
  let s := sentMessage "M2" "U2" "Hi" 1990 in
  NoDup (List.map id [h]) /\ NoDup (List.map id [l; h])
  /\ NoDup (List.map id [s])
  /\ List.map id (allMessages [h] [l; h] [s] ∅) = [lit "M2"; lit "M1"]
  /\ NoDup (List.map id (allMessages [h] [l; h] [s] ∅)).
Proof.
  intros h l s.
  assert (H1 : NoDup (List.map id [h])) by (apply NoDup_singleton).
  assert (H2 : NoDup (List.map id [l; h])).
  { apply NoDup_cons. split; [|apply NoDup_singleton].
    intros H. apply list_elem_of_singleton in H. vm_compute in H. discriminate. }
  assert (H3 : NoDup (List.map id [s])) by (apply NoDup_singleton).
  split; [exact H1|]. split; [exact H2|]. split; [exact H3|].
  split; [vm_compute; reflexivity|].
  apply (allMessages_distinct_ids [h] [l; h] [s] ∅ H1 H2 H3).
  intros p m [<-|[]] Hs. exfalso. apply Hs. reflexivity.
Defined.

(** *** What is rendered *)

Lemma StronglySorted_snoc {A} (R : A -> A -> Prop) l x :
  StronglySorted R l -> Forall (fun y => R y x) l ->
  StronglySorted R (l ++ [x]).
Proof.
  induction 1 as [|a l Hs IH Ha]; intros Hx; cbn.
  - constructor; constructor.
  - apply Forall_cons_1 in Hx as [Hax Hx].
    constructor; [now apply IH|].
    apply Forall_app. split; [exact Ha|].
    constructor; [exact Hax|constructor].
Qed.

Lemma StronglySorted_rev {A} (R : A -> A -> Prop) l :
  StronglySorted R l -> StronglySorted (fun a b => R b a) (rev l).
Proof.
  induction 1 as [|a l Hs IH Ha]; cbn; [constructor|].
  apply StronglySorted_snoc; [exact IH|].
  apply List.Forall_forall. intros y Hy. apply in_rev in Hy.
  rewrite List.Forall_forall in Ha. now apply Ha.
Qed.

(** X4: when every [createdAt] of the inputs is a date, the list handed
    to the renderer runs from the oldest message to the newest, and it
    holds the messages of the output. *)
Theorem renderedMessages_oldest_first loaded ws pending deleted :
  (forall m, In m loaded \/ In m ws \/ In m pending -> getTime m <> None) ->
  StronglySorted notNewer (renderedMessages loaded ws pending deleted)
  /\ forall m,
      In m (renderedMessages loaded ws pending deleted)
      <-> In m (allMessages loaded ws pending deleted).
Proof.
  intros H. unfold renderedMessages. split.
  - apply (StronglySorted_rev notOlder).
    now apply ChatProperties.allMessages_newest_first.
  - intros m. symmetry. apply in_rev.
Qed.

Lemma renderedMessages_oldest_first_witness :
  let a := textMessage "A" "U1" "first" 1000 in
  let b := textMessage "B" "U2" "second" 2000 in
  let c := textMessage "C" "U2" "third" 3000 in
  (forall m, In m [b] \/ In m [a; c] \/ In m [] -> getTime m <> None)
  /\ renderedMessages [b] [a; c] [] ∅ = [a; b; c]
  /\ StronglySorted notNewer (renderedMessages [b] [a; c] [] ∅).
Proof.
  intros a b c.
  assert (H : forall m, In m [b] \/ In m [a; c] \/ In m [] ->
                        getTime m <> None).
  { intros m [[<-|[]]|[[<-|[<-|[]]]|[]]]; discriminate. }
  split; [exact H|]. split; [vm_compute; reflexivity|].
  exact (proj1 (renderedMessages_oldest_first [b] [a; c] [] ∅ H)).
Defined.

(** *** The handlers *)

Lemma truthy_trim_not_blank s : ~ blank s -> truthy (trim s) = true.
Proof.
  intros H. destruct (truthy (trim s)) eqn:E; [reflexivity|].
  exfalso. apply H. now apply JsFacts.not_truthy_trim.
Qed.

Lemma map_other_tempId (f : ChatMessage -> ChatMessage) uuid l :
  (forall p, In p l -> tempId p <> Some uuid) ->
  List.map (fun msg => if bool_decide (tempId msg = Some uuid) then f msg else msg) l
  = l.
Proof.
  induction l as [|p l IH]; intros H; cbn; [reflexivity|].
  rewrite IH by (intros q Hq; apply H; now right).
  destruct (bool_decide_reflect (tempId p = Some uuid)) as [E|_];
    [|reflexivity].
  exfalso. apply (H p); [now left|exact E].
Qed.

Lemma mark_set (marks : gset jsstring) x : x ∈ marks ∪ {[x]}.
Proof. apply elem_of_union_r, elem_of_singleton. reflexivity. Qed.

Lemma mark_cleared (marks : gset jsstring) x : x ∉ (marks ∪ {[x]}) ∖ {[x]}.
Proof.
  intros H. apply elem_of_difference in H as [_ H].
  apply H, elem_of_singleton. reflexivity.
Qed.

Lemma mark_others (marks : gset jsstring) x y :
  y <> x -> y ∈ (marks ∪ {[x]}) ∖ {[x]} <-> y ∈ marks.
Proof.
  intros Hne. rewrite elem_of_difference, elem_of_union, !elem_of_singleton.
  tauto.
Qed.

(** The updater of a fulfilled send, with a message in the response and
    without. *)
Lemma mapM_markSent uuid (response_data : option ChatMessage) l :
  mapM
    (fun msg =>
       if bool_decide (tempId msg = Some uuid)
       then
         match response_data with
         | Some data =>
             Some (spread msg [F_id (id data); F_tempId uuid; F_status SUCCESS])
         | None => None
         end
       else Some msg) l
  = match response_data with
    | Some d =>
        Some
          (List.map
             (fun msg =>
                if bool_decide (tempId msg = Some uuid)
                then spread msg [F_id (id d); F_tempId uuid; F_status SUCCESS]
                else msg) l)
    | None =>
        if existsb (fun msg => bool_decide (tempId msg = Some uuid)) l
        then None else Some l
    end.
Proof.
  destruct response_data as [d|]; induction l as [|p l IH];
    try reflexivity; cbn [mapM List.map existsb]; rewrite IH;
    destruct (bool_decide (tempId p = Some uuid)); try reflexivity.
  cbn. destruct (existsb _ l); reflexivity.
Qed.

Section HandlerExtras.
Variable convertEmojiToText : jsstring -> jsstring.
Variable toUpperCase : jsstring -> jsstring.
Variable ctx : ChatContext.

(** The run of a send, by what the call returns. *)
Lemma handleSendMessage_run st uuid now api :
  ~ blank (messageText st) ->
  (forall p, In p (pendingMessages st) -> tempId p <> Some uuid) ->
  let opt := optimisticMessageOf convertEmojiToText ctx st uuid now in
  let req := SendMessage (props_courseId ctx) (content opt) (lit "TEXT") uuid in
  let snap :=
    setShowEmojiPicker false
      (setMessageText []
         (setShouldScrollToBottom true
            (setPendingMessages (fun prev => prev ++ [opt]) st))) in
  run (handleSendMessage convertEmojiToText ctx st uuid now) api st
  = match api req with
    | Fulfilled (Some d) =>
        (setPendingMessages
           (fun _ =>
              pendingMessages st
              ++ [spread opt [F_id (id d); F_tempId uuid; F_status SUCCESS]])
           snap,
         [Requested req snap])
    | Fulfilled None => (snap, [Requested req snap; RenderThrew])
    | Rejected =>
        (setPendingMessages
           (fun _ => pendingMessages st ++ [spread opt [F_status ERROR]])
           snap,
         [Requested req snap;
          Toasted "Failed to send message. Please try again."])
    end.
Proof.
  intros Hb Hfresh opt req snap. unfold handleSendMessage.
  rewrite (truthy_trim_not_blank _ Hb). cbn [negb run].
  change (SendMessage (props_courseId ctx)
            (convertEmojiToText (trim (messageText st))) (lit "TEXT") uuid)
    with req.
  fold (optimisticMessageOf convertEmojiToText ctx st uuid now). fold opt.
  fold snap.
  assert (Hp : pendingMessages snap = pendingMessages st ++ [opt])
    by reflexivity.
  assert (Ht : tempId opt = Some uuid) by reflexivity.
  destruct (api req) as [response_data|]; cbn [run].
  - unfold setPendingMessagesOrThrow. rewrite mapM_markSent, Hp.
    destruct response_data as [d|].
    + rewrite List.map_app, (map_other_tempId _ uuid _ Hfresh).
      cbn [List.map]. rewrite (bool_decide_eq_true_2 _ Ht). reflexivity.
    + rewrite existsb_app. cbn [existsb].
      rewrite (bool_decide_eq_true_2 _ Ht), orb_true_r. reflexivity.
  - unfold setPendingMessages at 1. rewrite Hp.
    rewrite List.map_app, (map_other_tempId _ uuid _ Hfresh).
    cbn [List.map]. rewrite (bool_decide_eq_true_2 _ Ht). reflexivity.
Qed.

(** The entry of a send in the outbox, once the call has returned. *)
Lemma handleSendMessage_pending st uuid now api :
  ~ blank (messageText st) ->
  (forall p, In p (pendingMessages st) -> tempId p <> Some uuid) ->
  let opt := optimisticMessageOf convertEmojiToText ctx st uuid now in
  let req := SendMessage (props_courseId ctx) (content opt) (lit "TEXT") uuid in
  pendingMessages
    (fst (run (handleSendMessage convertEmojiToText ctx st uuid now) api st))
  = pendingMessages st
    ++ [match api req with
        | Fulfilled (Some d) =>
            spread opt [F_id (id d); F_tempId uuid; F_status SUCCESS]
        | Fulfilled None => opt
        | Rejected => spread opt [F_status ERROR]
        end].
Proof.
  intros Hb Hfresh opt req.
  rewrite (handleSendMessage_run st uuid now api Hb Hfresh). fold opt req.
  destruct (api req) as [[d|]|]; reflexivity.
Qed.

(** X5: a send of a draft that is not blank, with a temporary id no entry
    of the outbox has: the one request goes out with the optimistic
    PENDING entry already at the end of the outbox, the draft cleared and
    the emoji picker closed.  Afterwards the outbox is the old one
    followed by that entry: SUCCESS under the id of the server, with
    nothing shown, when the call returned a message; ERROR, with an error
    shown, when the call was rejected; and when the call was fulfilled
    without a message the exception of the updater surfaces in the render,
    not in the handler: nothing is shown, the state is the one the request
    went out in and the entry is PENDING still.  The stores and the
    tombstones are not touched. *)
Theorem handleSendMessage_outbox st uuid now api :
  ~ blank (messageText st) ->
  (forall p, In p (pendingMessages st) -> tempId p <> Some uuid) ->
  let opt := optimisticMessageOf convertEmojiToText ctx st uuid now in
  let req := SendMessage (props_courseId ctx) (content opt) (lit "TEXT") uuid in
  let result := run (handleSendMessage convertEmojiToText ctx st uuid now) api st in
  (exists snap,
      requests (snd result) = [(req, snap)]
      /\ pendingMessages snap = pendingMessages st ++ [opt]
      /\ messageText snap = []
      /\ showEmojiPicker snap = false
      /\ snd result
         = match api req with
           | Fulfilled (Some _) => [Requested req snap]
           | Fulfilled None => [Requested req snap; RenderThrew]
           | Rejected =>
               [Requested req snap;
                Toasted "Failed to send message. Please try again."]
           end
      /\ (api req = Fulfilled None -> fst result = snap))
  /\ pendingMessages (fst result)
     = pendingMessages st
       ++ [match api req with
           | Fulfilled (Some d) =>
               {| id := id d; tempId := Some uuid; courseId := courseId opt;
                  content := content opt; type := type opt;
                  senderId := senderId opt; senderName := senderName opt;
                  senderThumbnailUrl := senderThumbnailUrl opt;
                  senderRole := senderRole opt; createdAt := createdAt opt;
                  status := Some SUCCESS |}
           | Fulfilled None => opt
           | Rejected =>
               {| id := uuid; tempId := Some uuid; courseId := courseId opt;
                  content := content opt; type := type opt;
                  senderId := senderId opt; senderName := senderName opt;
                  senderThumbnailUrl := senderThumbnailUrl opt;
                  senderRole := senderRole opt; createdAt := createdAt opt;
                  status := Some ERROR |}
           end]
  /\ status opt = Some PENDING
  /\ toasts (snd result)
     = match api req with
       | Fulfilled _ => []
       | Rejected => ["Failed to send message. Please try again."%string]
       end
  /\ loadedMessages (fst result) = loadedMessages st
  /\ wsMessages (fst result) = wsMessages st
  /\ deletedMessages (fst result) = deletedMessages st.
Proof.
  intros Hb Hfresh opt req result. unfold result.
  rewrite (handleSendMessage_run st uuid now api Hb Hfresh). fold opt req.
  split.
  - exists (setShowEmojiPicker false
              (setMessageText []
                 (setShouldScrollToBottom true
                    (setPendingMessages (fun prev => prev ++ [opt]) st)))).
    destruct (api req) as [[d|]|]; repeat split; discriminate.
  - destruct (api req) as [[d|]|]; repeat split.
Qed.

(** The request of a send and the state it goes out in. *)
Lemma handleSendMessage_requests st uuid now api :
  ~ blank (messageText st) ->
  let opt := optimisticMessageOf convertEmojiToText ctx st uuid now in
  let req := SendMessage (props_courseId ctx) (content opt) (lit "TEXT") uuid in
  requests (snd (run (handleSendMessage convertEmojiToText ctx st uuid now) api st))
  = [(req,
      setShowEmojiPicker false
        (setMessageText []
           (setShouldScrollToBottom true
              (setPendingMessages (fun prev => prev ++ [opt]) st))))].
Proof.
  intros Hb opt req. unfold handleSendMessage.
  rewrite (truthy_trim_not_blank _ Hb). cbn [negb run].
  destruct (api _) as [response_data|]; cbn [run]; [|reflexivity].
  destruct (setPendingMessagesOrThrow _ _); reflexivity.
Qed.

(** X6: whatever the call returns and whatever the outbox held, the
    request of a send goes out in a state with whose outbox the optimistic
    entry, PENDING, is in the output, for every history window and live
    buffer, unless its temporary id is tombstoned; and once the send (with
    a temporary id no entry of the outbox had) has returned the message of
    the server and the merged set holds a message with that id, the
    reconciler keeps of the outbox what it kept before the send: the entry
    has given way to the authoritative copy. *)
Theorem sent_entry_gives_way st uuid now api loaded ws deleted :
  ~ blank (messageText st) ->
  let opt := optimisticMessageOf convertEmojiToText ctx st uuid now in
  let req := SendMessage (props_courseId ctx) (content opt) (lit "TEXT") uuid in
  let result := run (handleSendMessage convertEmojiToText ctx st uuid now) api st in
  (exists snap,
      requests (snd result) = [(req, snap)]
      /\ status opt = Some PENDING
      /\ (uuid ∉ deleted ->
          In opt (allMessages loaded ws (pendingMessages snap) deleted)))
  /\ forall d m,
      (forall p, In p (pendingMessages st) -> tempId p <> Some uuid) ->
      api req = Fulfilled (Some d) ->
      In m (combinedMessages loaded ws) -> id m = id d ->
      pendingWithoutDuplicates (combinedMessages loaded ws)
        (pendingMessages (fst result))
      = pendingWithoutDuplicates (combinedMessages loaded ws) (pendingMessages st).
Proof.
  intros Hb opt req result.
  assert (Hin : In opt (pendingMessages st ++ [opt]))
    by (apply in_app_iff; right; now left).
  split.
  - unfold result. rewrite (handleSendMessage_requests st uuid now api Hb).
    fold opt req. eexists. split; [reflexivity|]. split; [reflexivity|].
    intros Hd. unfold allMessages.
    apply (Array_sort_In _), allCombined_In.
    split; [exact Hd|]. right. right. split; [exact Hin|].
    intros Hs. discriminate Hs.
  - intros d m Hfresh Hapi Hm Hid. unfold result.
    rewrite (handleSendMessage_pending st uuid now api Hb Hfresh).
    fold opt req. rewrite Hapi.
    unfold pendingWithoutDuplicates. rewrite List.filter_app. cbn [List.filter].
    assert (Hk : keepPending (combinedMessages loaded ws)
                   (spread opt [F_id (id d); F_tempId uuid; F_status SUCCESS])
                 = false).
    { unfold keepPending. cbn [spread fold_left setField status status_eqb].
      apply negb_false_iff, hasRealMessage_spec.
      exists m. split; [exact Hm|]. left. exact Hid. }
    rewrite Hk. apply app_nil_r.
Qed.

(** X7: while the delete of a message is in flight no message with its id
    can be edited, and when the handler is through the id is no longer
    marked as being deleted, whether the call succeeded or failed; the
    marks of other ids are as before. *)
Theorem handleDeleteMessage_in_flight st messageId api :
  let result := run (handleDeleteMessage ctx messageId) api st in
  (forall r snap m,
      In (r, snap) (requests (snd result)) -> id m = messageId ->
      canEditMessage toUpperCase ctx snap m = false)
  /\ (messageId ∉ deletingMessages (fst result))
  /\ (forall x, x <> messageId ->
                x ∈ deletingMessages (fst result) <-> x ∈ deletingMessages st).
Proof using toUpperCase ctx.
  intros result. unfold result, handleDeleteMessage. cbn [run].
  repeat apply conj.
  - intros r snap m Hin Hid. unfold canEditMessage.
    assert (Hs : has (deletingMessages snap) (id m) = true).
    { destruct (api _) as [d|]; cbn in Hin; destruct Hin as [E|[]];
        injection E as _ <-; apply has_true; cbn; rewrite Hid;
        apply mark_set. }
    rewrite Hs. cbn. now rewrite !andb_false_r.
  - destruct (api _) as [d|]; cbn; apply mark_cleared.
  - intros x Hx. destruct (api _) as [d|]; cbn; now apply mark_others.
Qed.

(** X8: while the update of a message is in flight no message with its id
    can be edited, and when the handler is through the id is no longer
    marked as being updated; a successful update closes the editor and
    empties its text, a failed one leaves the editor open with the text as
    typed. *)
Theorem handleEditMessage_in_flight st messageId api :
  trim (editingText st) <> [] ->
  let req :=
    UpdateMessage (props_courseId ctx) messageId (lit "TEXT")
      (trim (editingText st)) in
  let result := run (handleEditMessage ctx st messageId) api st in
  (forall r snap m,
      In (r, snap) (requests (snd result)) -> id m = messageId ->
      canEditMessage toUpperCase ctx snap m = false)
  /\ (messageId ∉ updatingMessages (fst result))
  /\ match api req with
     | Fulfilled _ =>
         editingMessageId (fst result) = None /\ editingText (fst result) = []
     | Rejected =>
         editingMessageId (fst result) = editingMessageId st
         /\ editingText (fst result) = editingText st
     end.
Proof using toUpperCase ctx.
  intros Hne. cbv zeta. unfold handleEditMessage.
  destruct (trim (editingText st)) as [|c r0] eqn:Ht; [contradiction|].
  cbn [truthy negb run]. repeat apply conj.
  - intros r snap m Hin Hid. unfold canEditMessage.
    assert (Hs : has (updatingMessages snap) (id m) = true).
    { destruct (api _) as [[d|]|]; cbn in Hin; destruct Hin as [E|[]];
        injection E as _ <-; apply has_true; cbn; rewrite Hid;
        apply mark_set. }
    rewrite Hs. cbn. now rewrite !andb_false_r.
  - destruct (api _) as [[d|]|]; cbn; apply mark_cleared.
  - destruct (api _) as [[d|]|]; cbn; auto.
Qed.

(** X9: with an edit text that is empty or all white space, confirming the
    edit does nothing: nothing is requested or shown, no state changes and
    the editor stays open. *)
Theorem handleEditMessage_blank_noop st messageId api :
  blank (editingText st) ->
  run (handleEditMessage ctx st messageId) api st = (st, []).
Proof.
  intros Hb. unfold handleEditMessage.
  now rewrite (proj2 (JsFacts.not_truthy_trim _) Hb).
Qed.

Lemma keepPending_not_SUCCESS combined p :
  status_eqb (status p) SUCCESS = false -> keepPending combined p = true.
Proof. unfold keepPending. now intros ->. Qed.

(** X10: after a reconnect the outbox holds the entries that were not
    SUCCESS, in their order, and the reconciler keeps every one of them
    whatever the merged set holds; the stores and the tombstones are not
    touched. *)
Theorem onReconnect_outbox st api combined :
  let st' := fst (run onReconnect api st) in
  (forall p,
      In p (pendingMessages st')
      <-> In p (pendingMessages st) /\ status p <> Some SUCCESS)
  /\ pendingWithoutDuplicates combined (pendingMessages st')
     = pendingMessages st'
  /\ loadedMessages st' = loadedMessages st
  /\ wsMessages st' = wsMessages st
  /\ deletedMessages st' = deletedMessages st.
Proof.
  cbn. repeat apply conj; try reflexivity.
  - intros p. rewrite filter_In, negb_true_iff.
    rewrite <- status_eqb_SUCCESS.
    destruct (status_eqb (status p) SUCCESS); intuition congruence.
  - unfold pendingWithoutDuplicates.
    induction (pendingMessages st) as [|p l IH]; cbn; [reflexivity|].
    destruct (status_eqb (status p) SUCCESS) eqn:Hs; cbn; [exact IH|].
    rewrite (keepPending_not_SUCCESS combined p Hs). now rewrite IH.
Qed.

(** X11: on a text message whose content is not blank, opening the editor
    and confirming at once requests the update of that message with its
    trimmed content, and nothing else. *)
Theorem startEditing_then_confirm st message api :
  toUpperCase (type message) = lit "TEXT" ->
  trim (content message) <> [] ->
  let st1 := fst (run (startEditing toUpperCase message) api st) in
  editingMessageId st1 = Some (id message)
  /\ List.map fst
       (requests (snd (run (handleEditMessage ctx st1 (id message)) api st1)))
     = [UpdateMessage (props_courseId ctx) (id message) (lit "TEXT")
          (trim (content message))].
Proof.
  intros He Hc. unfold startEditing.
  rewrite bool_decide_eq_true_2 by exact He. cbn.
  split; [reflexivity|].
  unfold handleEditMessage. cbn [editingText setEditingText].
  destruct (trim (content message)) as [|c r]; [contradiction|].
  cbn [truthy negb run]. destruct (api _) as [[d|]|]; reflexivity.
Qed.

End HandlerExtras.

Lemma exampleState_not_blank : ~ blank (messageText exampleState).
Proof.
  intros H. apply JsFacts.trim_blank in H. vm_compute in H. discriminate.
Defined.

(** The draft " Hi " is sent and the server answers with message S1; and
    the same send answered without a message. *)
Lemma handleSendMessage_outbox_witness :
  let send :=
    handleSendMessage (fun text => text) exampleContext exampleState
      (lit "tmp-1") 5000 in
  let sent := run send (fun _ => Fulfilled (Some (textMessage "S1" "U1" "Hi" 5200)))
                exampleState in
  let unsent := run send (fun _ => Fulfilled None) exampleState in
  ~ blank (messageText exampleState)
  /\ (forall p, In p (pendingMessages exampleState) -> tempId p <> Some (lit "tmp-1"))
  /\ List.map (fun p => (id p, tempId p, status p)) (pendingMessages (fst sent))
     = [(lit "S1", Some (lit "tmp-1"), Some SUCCESS)]
  /\ toasts (snd sent) = []
  /\ List.map (fun p => (id p, tempId p, status p)) (pendingMessages (fst unsent))
     = [(lit "tmp-1", Some (lit "tmp-1"), Some PENDING)]
  /\ toasts (snd unsent) = [].
Proof.
  intros send sent unsent.
  assert (H2 : forall p, In p (pendingMessages exampleState) ->
                         tempId p <> Some (lit "tmp-1")) by (intros p []).
  split; [exact exampleState_not_blank|]. split; [exact H2|].
  destruct (handleSendMessage_outbox (fun text => text) exampleContext
              exampleState (lit "tmp-1") 5000
              (fun _ => Fulfilled (Some (textMessage "S1" "U1" "Hi" 5200)))
              exampleState_not_blank H2)
    as (_ & Hp & _ & Ht & _).
  destruct (handleSendMessage_outbox (fun text => text) exampleContext
              exampleState (lit "tmp-1") 5000 (fun _ => Fulfilled None)
              exampleState_not_blank H2)
    as (_ & Hp' & _ & Ht' & _).
  fold send in Hp, Ht, Hp', Ht'. fold sent in Hp, Ht. fold unsent in Hp', Ht'.
  rewrite Hp, Ht, Hp', Ht'.
  split; [vm_compute; reflexivity|]. split; [reflexivity|].
  split; [vm_compute; reflexivity|reflexivity].
Defined.

(** The same send: the entry is in the output while the request is out,
    and gives way once S1 is in the live buffer. *)
Lemma sent_entry_gives_way_witness :
  let d := textMessage "S1" "U1" "Hi" 5200 in
  let api := fun _ : Request => Fulfilled (Some d) in
  let send :=
    handleSendMessage (fun text => text) exampleContext exampleState
      (lit "tmp-1") 5000 in
  let opt :=
    optimisticMessageOf (fun text => text) exampleContext exampleState
      (lit "tmp-1") 5000 in
  ~ blank (messageText exampleState)
  /\ (exists snap,
        List.map snd (requests (snd (run send api exampleState))) = [snap]
        /\ In opt (allMessages [] [] (pendingMessages snap) ∅))
  /\ In d (combinedMessages [] [d])
  /\ pendingWithoutDuplicates (combinedMessages [] [d])
       (pendingMessages (fst (run send api exampleState))) = [].
Proof.
  intros d api send opt.
  assert (H2 : forall p, In p (pendingMessages exampleState) ->
                         tempId p <> Some (lit "tmp-1")) by (intros p []).
  assert (H3 : In d (combinedMessages [] [d])) by (left; reflexivity).
  split; [exact exampleState_not_blank|].
  destruct (sent_entry_gives_way (fun text => text) exampleContext exampleState
              (lit "tmp-1") 5000 api [] [] ∅ exampleState_not_blank)
    as [(snap & Hr & _ & Hin) _].
  destruct (sent_entry_gives_way (fun text => text) exampleContext exampleState
              (lit "tmp-1") 5000 api [] [d] ∅ exampleState_not_blank)
    as [_ H].
  split; [|split; [exact H3|exact (H d d H2 eq_refl H3 eq_refl)]].
  exists snap. fold send in Hr. rewrite Hr. split; [reflexivity|].
  apply Hin, not_elem_of_empty.
Defined.

(** An edit of M1 that the server refuses. *)
Lemma handleEditMessage_in_flight_witness :
  let api := fun _ : Request => Rejected in
  let result :=
    run (handleEditMessage exampleContext exampleState (lit "M1")) api exampleState in
  trim (editingText exampleState) <> []
  /\ (lit "M1" ∉ updatingMessages (fst result))
  /\ editingMessageId (fst result) = Some (lit "M1")
  /\ editingText (fst result) = lit " Hello again ".
Proof.
  intros api result.
  assert (Hne : trim (editingText exampleState) <> []) by (vm_compute; discriminate).
  split; [exact Hne|].
  destruct (handleEditMessage_in_flight (fun text => text) exampleContext
              exampleState (lit "M1") api Hne) as (_ & H2 & H3 & H4).
  split; [exact H2|]. split; [exact H3|exact H4].
Defined.

(** An edit text of two spaces. *)
Lemma handleEditMessage_blank_noop_witness :
  let st := setEditingText (lit "  ") exampleState in
  blank (editingText st)
  /\ run (handleEditMessage exampleContext st (lit "M1")) (fun _ => Rejected) st
     = (st, []).
Proof.
  intros st.
  assert (Hb : blank (editingText st)) by (repeat constructor).
  split; [exact Hb|].
  exact (handleEditMessage_blank_noop exampleContext st (lit "M1")
           (fun _ => Rejected) Hb).
Defined.

(** The editor is opened on M1 and confirmed. *)
Lemma startEditing_then_confirm_witness :
  let message := textMessage "M1" "U1" " Hello " 1000 in
  let st1 := fst (run (startEditing (fun s => s) message) (fun _ => Rejected) exampleState) in
  type message = lit "TEXT"
  /\ trim (content message) <> []
  /\ List.map fst
       (requests
          (snd (run (handleEditMessage exampleContext st1 (id message))
                  (fun _ => Rejected) st1)))
     = [UpdateMessage (lit "C1") (lit "M1") (lit "TEXT") (lit "Hello")].
Proof.
  intros message st1.
  assert (H1 : type message = lit "TEXT") by reflexivity.
  assert (H2 : trim (content message) <> []) by (vm_compute; discriminate).
  split; [exact H1|]. split; [exact H2|].
  destruct (startEditing_then_confirm (fun s => s) exampleContext exampleState
              message (fun _ => Rejected) H1 H2) as [_ H].
  exact H.
Defined.

End ChatExtras.

(** ** The age shown on a message *)

Module ChatMessageItemExtras.

Import ChatMessageItem.

Lemma div_ltb a b k : 0 < b -> (a / b <? k) = (a <? k * b).
Proof.
  intros Hb.
  destruct (Z.ltb_spec (a / b) k) as [H|H], (Z.ltb_spec a (k * b)) as [H'|H'];
    try reflexivity; exfalso.
  - assert (k <= a / b) by (apply Z.div_le_lower_bound; lia). lia.
  - assert (a / b < k) by (apply Z.div_lt_upper_bound; lia). lia.
Qed.

Lemma formatTimeAgo_valid now d :
  Z.abs (now - d) < 2 ^ 53 ->
  let diff := now - d in
  formatTimeAgo now (Some d)
  = if diff <? minuteMs then lit "just now"
    else if diff <? hourMs then toString (Some (diff / minuteMs)) ++ lit "m ago"
    else if diff <? dayMs then toString (Some (diff / hourMs)) ++ lit "h ago"
    else if diff <? 7 * dayMs then toString (Some (diff / dayMs)) ++ lit "d ago"
    else if diff <? 28 * dayMs then
      toString (Some (diff / (7 * dayMs))) ++ lit "w ago"
    else if diff <? 360 * dayMs then
      toString (Some (diff / (30 * dayMs))) ++ lit "mo ago"
    else toString (Some (diff / (365 * dayMs))) ++ lit "y ago".
Proof.
  intros Hd diff. unfold formatTimeAgo. cbn [sub floorDiv lt].
  rewrite (JsFacts.toDouble_exact _ Hd). fold diff.
  rewrite !Z.div_div by lia.
  rewrite !div_ltb by lia.
  reflexivity.
Qed.

(** X12: the age of a message by the time since it was created, for a
    difference of the two instants that is a Number exactly (below 2^53
    ms, some 285,000 years): "just now" under a minute (also for a
    timestamp in the future), then whole minutes up to the hour, whole
    hours up to the day, whole days up to seven, whole weeks up to
    twenty-eight days, then periods of thirty days up to 360 days and
    periods of 365 days from there; a timestamp that does not parse gives
    "NaNy ago". *)
Theorem formatTimeAgo_ranges now d :
  Z.abs (now - d) < 2 ^ 53 ->
  let diff := now - d in
  formatTimeAgo now (Some d)
  = (if diff <? minuteMs then lit "just now"
     else if diff <? hourMs then toString (Some (diff / minuteMs)) ++ lit "m ago"
     else if diff <? dayMs then toString (Some (diff / hourMs)) ++ lit "h ago"
     else if diff <? 7 * dayMs then toString (Some (diff / dayMs)) ++ lit "d ago"
     else if diff <? 28 * dayMs then
       toString (Some (diff / (7 * dayMs))) ++ lit "w ago"
     else if diff <? 360 * dayMs then
       toString (Some (diff / (30 * dayMs))) ++ lit "mo ago"
     else toString (Some (diff / (365 * dayMs))) ++ lit "y ago")
  /\ formatTimeAgo now None = lit "NaNy ago".
Proof.
  intros Hd. split; [now apply formatTimeAgo_valid|reflexivity].
Qed.

(** A message of ninety minutes. *)
Lemma formatTimeAgo_ranges_witness :
  Z.abs (1700005400000 - 1700000000000) < 2 ^ 53
  /\ formatTimeAgo 1700005400000 (Some 1700000000000) = lit "1h ago"
  /\ formatTimeAgo 1700005400000 None = lit "NaNy ago".
Proof.
  assert (H : Z.abs (1700005400000 - 1700000000000) < 2 ^ 53)
    by (vm_compute; reflexivity).
  split; [exact H|].
  destruct (formatTimeAgo_ranges 1700005400000 1700000000000 H) as [H1 H2].
  split; [|exact H2].
  rewrite H1. vm_compute. reflexivity.
Defined.

(** Beyond 2^53 ms the difference is rounded before it is divided: from
    the earliest instant a Date can hold to one millisecond short of
    520,000 periods of 365 days later, the age shown is "520000y ago". *)
Lemma formatTimeAgo_rounded :
  (7758719999999999 - -8640000000000000) / (365 * dayMs) = 519999
  /\ formatTimeAgo 7758719999999999 (Some (-8640000000000000))
     = lit "520000y ago".
Proof.
  split; vm_compute; reflexivity.
Qed.

(** X13: a message of twenty-eight or twenty-nine days is shown as
    "0mo ago": it is past the weeks and short of a period of thirty
    days. *)
Theorem formatTimeAgo_zero_months now d :
  28 * dayMs <= now - d < 30 * dayMs ->
  formatTimeAgo now (Some d) = lit "0mo ago".
Proof.
  intros H. rewrite formatTimeAgo_valid by (unfold dayMs in H; lia).
  cbv zeta. unfold minuteMs, hourMs, dayMs in *.
  repeat match goal with
         | |- context [?a <? ?b] =>
             destruct (Z.ltb_spec a b); try lia
         end.
  rewrite Z.div_small by lia. reflexivity.
Qed.

Lemma formatTimeAgo_zero_months_witness :
  28 * dayMs <= 2500000000 - 0 < 30 * dayMs
  /\ formatTimeAgo 2500000000 (Some 0) = lit "0mo ago".
Proof.
  assert (H : 28 * dayMs <= 2500000000 - 0 < 30 * dayMs)
    by (unfold dayMs; lia).
  split; [exact H|exact (formatTimeAgo_zero_months 2500000000 0 H)].
Defined.

(** X14: a message of 360 to 364 days is shown as "0y ago": it is past
    twelve periods of thirty days and short of a period of 365 days. *)
Theorem formatTimeAgo_zero_years now d :
  360 * dayMs <= now - d < 365 * dayMs ->
  formatTimeAgo now (Some d) = lit "0y ago".
Proof.
  intros H. rewrite formatTimeAgo_valid by (unfold dayMs in H; lia).
  cbv zeta. unfold minuteMs, hourMs, dayMs in *.
  repeat match goal with
         | |- context [?a <? ?b] =>
             destruct (Z.ltb_spec a b); try lia
         end.
  rewrite Z.div_small by lia. reflexivity.
Qed.

Lemma formatTimeAgo_zero_years_witness :
  360 * dayMs <= 31200000000 - 0 < 365 * dayMs
  /\ formatTimeAgo 31200000000 (Some 0) = lit "0y ago".
Proof.
  assert (H : 360 * dayMs <= 31200000000 - 0 < 365 * dayMs)
    by (unfold dayMs; lia).
  split; [exact H|exact (formatTimeAgo_zero_years 31200000000 0 H)].
Defined.

End ChatMessageItemExtras.

(** ** More on the transport session *)

Module WebSocketServiceExtras.

Import WebSocketService WebSocketServiceProperties.

(** *** What settling a promise leaves alone *)

Lemma reaction_rest s w :
  timers (reaction s w) = timers w /\ tasks (reaction s w) = tasks w.
Proof.
  unfold reaction. destruct s; auto.
  destruct (config (this w)); auto.
Qed.

Lemma settle_rest p s w :
  timers (settle p s w) = timers w
  /\ tasks (settle p s w) = tasks w
  /\ length (promises (settle p s w)) = length (promises w).
Proof.
  unfold settle.
  destruct (promises w !! p) as [pr|]; auto.
  destruct (state pr); auto.
  destruct (chained pr).
  - match goal with
    | |- timers (reaction s ?w1) = _ /\ _ =>
        destruct (reaction_rest s w1) as (-> & ->);
        destruct (reaction_frame s w1) as (_ & -> & _)
    end.
    cbn. now rewrite length_insert.
  - cbn. now rewrite length_insert.
Qed.

Lemma settle_other p q s w :
  q <> p -> promiseState p (settle q s w) = promiseState p w.
Proof.
  intros Hne. unfold settle, promiseState.
  destruct (promises w !! q) as [pr|]; auto.
  destruct (state pr); auto.
  destruct (chained pr).
  - match goal with
    | |- state <$> promises (reaction s ?w1) !! p = _ =>
        destruct (reaction_frame s w1) as (_ & -> & _)
    end.
    cbn. now rewrite list_lookup_insert_ne.
  - cbn. now rewrite list_lookup_insert_ne.
Qed.

Lemma promiseState_Some_lt p s w :
  promiseState p w = Some s -> (p < length (promises w))%nat.
Proof.
  unfold promiseState. intros H.
  destruct (promises w !! p) eqn:E; [|discriminate].
  eapply lookup_lt_Some; eauto.
Qed.

Lemma unsubscribe_frame w :
  subscription (this (unsubscribe w)) = None
  /\ client (this (unsubscribe w)) = client (this w)
  /\ config (this (unsubscribe w)) = config (this w)
  /\ isConnected (this (unsubscribe w)) = isConnected (this w)
  /\ currentUserId (this (unsubscribe w)) = currentUserId (this w)
  /\ reconnectAttempts (this (unsubscribe w)) = reconnectAttempts (this w)
  /\ clients (unsubscribe w) = clients w
  /\ promises (unsubscribe w) = promises w
  /\ timers (unsubscribe w) = timers w.
Proof.
  unfold unsubscribe.
  destruct (subscription (this w)) eqn:E; cbn; repeat split; auto.
Qed.

(** *** The counter and the timers in every run *)

Lemma disconnect_counter w :
  reconnectAttempts (this (disconnect w)) = reconnectAttempts (this w)
  /\ timers (disconnect w) = timers w.
Proof.
  unfold disconnect. cbn [this setPromises client isConnected].
  destruct (client (this w)) as [c|];
    [destruct (isConnected (this w))|].
  - cbn.
    match goal with
    | |- reconnectAttempts (this (unsubscribe ?w1)) = _ /\ _ =>
        destruct (unsubscribe_frame w1)
          as (_ & _ & _ & _ & _ & -> & _ & _ & ->)
    end.
    split; reflexivity.
  - match goal with
    | |- reconnectAttempts (this (settle ?p ?s ?w1)) = _ /\ _ =>
        destruct (settle_frame p s w1) as [-> _];
        destruct (settle_rest p s w1) as (-> & _)
    end.
    split; reflexivity.
  - match goal with
    | |- reconnectAttempts (this (settle ?p ?s ?w1)) = _ /\ _ =>
        destruct (settle_frame p s w1) as [-> _];
        destruct (settle_rest p s w1) as (-> & _)
    end.
    split; reflexivity.
Qed.

Lemma onConnect_counter c now w :
  (reconnectAttempts (this (onConnect c now w)) = 0
   \/ reconnectAttempts (this (onConnect c now w)) = reconnectAttempts (this w))
  /\ List.map delay (timers (onConnect c now w)) = List.map delay (timers w).
Proof.
  destruct (clients w !! c) as [cl|] eqn:Hc.
  - split; [left; apply onConnect_resets; eauto|].
    unfold onConnect. rewrite Hc.
    match goal with
    | |- List.map delay (timers (settle ?p ?s ?w1)) = _ =>
        destruct (settle_rest p s w1) as (-> & _)
    end.
    cbn.
    now destruct (quiet_subscribeToMessages (courseId (clientConfig cl)) now
                    (setThis (setReconnectAttempts 0)
                       (setThis (setIsConnected true) w))) as (_ & -> & _).
  - unfold onConnect. rewrite Hc. auto.
Qed.

Lemma teardown_counter q w :
  reconnectAttempts (this (teardown q w)) = 0
  /\ timers (teardown q w) = timers w.
Proof.
  unfold teardown.
  match goal with
  | |- reconnectAttempts (this (settle ?p ?s ?w1)) = _ /\ _ =>
      destruct (settle_frame p s w1) as [-> _];
      destruct (settle_rest p s w1) as (-> & _)
  end.
  split; reflexivity.
Qed.

Lemma reconnectDelay_intro k :
  1 <= k <= maxReconnectAttempts -> reconnectDelay (5000 * k).
Proof. intros H. exists k. auto. Qed.

Lemma bounded_step w e : bounded w -> bounded (step w e).
Proof.
  unfold bounded, maxReconnectAttempts. intros [Ha Ht].
  assert (Hq : forall w1, quiet w w1 ->
                 0 <= reconnectAttempts (this w1) <= 5
                 /\ Forall reconnectDelay (List.map delay (timers w1))).
  { intros w1 (_ & -> & -> & _). auto. }
  destruct e; cbn [step].
  - apply Hq, quiet_connect.
  - destruct (disconnect_counter w) as [-> ->]. auto.
  - destruct (onConnect_counter c now w) as [[->| ->] ->]; split; auto; lia.
  - apply Hq, quiet_onStompError.
  - unfold onDisconnectOf.
    destruct (clients w !! c) as [cl|]; [|auto].
    destruct (onDisconnect cl) as [|q].
    + destruct (autoReconnect_spec w) as (_ & _ & _ & -> & ->).
      destruct (Z.ltb_spec (reconnectAttempts (this w)) 5).
      * split; [lia|]. apply Forall_app. split; [exact Ht|].
        constructor; [|constructor].
        apply reconnectDelay_intro. unfold maxReconnectAttempts. lia.
      * rewrite app_nil_r. auto.
    + destruct (teardown_counter q w) as [-> ->]. split; [lia|exact Ht].
  - apply Hq, quiet_onWebSocketError.
  - apply Hq, quiet_timerFires.
  - apply Hq, quiet_subscribeResumes.
Qed.

(** X16: in every run of the session, whatever its owner and its clients
    do, the attempt counter stays between zero and five and every
    reconnection timer ever set has a delay of five seconds times a count
    from one to five: no reconnection is put off by more than twenty-five
    seconds. *)
Theorem session_stays_bounded tr :
  let w := exec init tr in
  0 <= reconnectAttempts (this w) <= maxReconnectAttempts
  /\ forall tm,
      In tm (timers w) ->
      exists k, 1 <= k <= maxReconnectAttempts /\ delay tm = 5000 * k.
Proof.
  assert (H : forall w, bounded w -> bounded (exec w tr)).
  { induction tr as [|e tr IH]; intros w Hw; [exact Hw|].
    cbn [exec fold_left]. apply IH. now apply bounded_step. }
  assert (H0 : bounded init).
  { split; [cbn; unfold maxReconnectAttempts; lia|constructor]. }
  destruct (H init H0) as [Ha Ht]. cbv zeta. split; [exact Ha|].
  intros tm Hin. rewrite List.Forall_forall in Ht.
  apply Ht, in_map, Hin.
Qed.

(** *** Teardown *)

Lemma disconnect_connected w c cl :
  client (this w) = Some c -> clients w !! c = Some cl ->
  isConnected (this w) = true ->
  clients (disconnect w)
  = <[c := {| clientConfig := clientConfig cl;
              connectPromise := connectPromise cl;
              onDisconnect := Teardown (length (promises w)) |}]> (clients w)
  /\ promises (disconnect w)
     = promises w ++ [{| state := Pending; chained := false |}]
  /\ this (disconnect w) = setSubscription None (this w)
  /\ timers (disconnect w) = timers w
  /\ log (disconnect w)
     = log w
       ++ match subscription (this w) with
          | Some destination => [Unsubscribe destination]
          | None => []
          end
       ++ [Deactivate c].
Proof.
  intros Hc Hcl Hi. unfold disconnect. cbn [this setPromises client isConnected].
  rewrite Hc, Hi. unfold unsubscribe. cbn [this setPromises subscription].
  destruct (this w) as [cli cfg ic sub cu ra] eqn:Ethis.
  cbn in *. destruct sub; cbn; rewrite ?Ethis, Hcl; cbn;
    rewrite <- ?app_assoc; repeat split.
Qed.



(** *** A promise no client can settle *)

Lemma orphaned_intro p w w1 :
  promiseState p w1 = promiseState p w ->
  Forall (fun cl => connectPromise cl <> p /\ onDisconnect cl <> Teardown p)
    (clients w1) ->
  orphaned p w -> orphaned p w1.
Proof.
  intros Hp Hc [H1 _]. split; [now rewrite Hp|exact Hc].
Qed.

Lemma orphaned_settle p q s w :
  q <> p -> orphaned p w -> orphaned p (settle q s w).
Proof.
  intros Hne Ho. apply (orphaned_intro p w); [now apply settle_other| |exact Ho].
  destruct (settle_frame q s w) as [_ ->]. apply Ho.
Qed.

Lemma orphaned_client p w c cl :
  orphaned p w -> clients w !! c = Some cl ->
  connectPromise cl <> p /\ onDisconnect cl <> Teardown p.
Proof.
  intros [_ Hc] Hl. rewrite List.Forall_forall in Hc. apply Hc.
  apply list_elem_of_In. eapply list_elem_of_lookup_2. exact Hl.
Qed.

Lemma orphaned_lt p w : orphaned p w -> (p < length (promises w))%nat.
Proof. intros [H _]. eapply promiseState_Some_lt. exact H. Qed.

Lemma orphaned_connect p cfg setup chain w :
  orphaned p w -> orphaned p (connect cfg setup chain w).
Proof.
  intros Ho. pose proof (orphaned_lt p w Ho) as Hlt.
  unfold connect. destruct setup as [|error].
  - apply (orphaned_intro p w); [| |exact Ho].
    + unfold promiseState. cbn. now rewrite lookup_app_l.
    + cbn. apply Forall_app. split; [apply Ho|].
      constructor; [|constructor]. cbn. split; [lia|discriminate].
  - apply orphaned_settle; [cbn; lia|].
    apply (orphaned_intro p w); [| |exact Ho].
    + unfold promiseState. cbn. now rewrite lookup_app_l.
    + cbn. apply Ho.
Qed.

Lemma orphaned_disconnect p w :
  orphaned p w -> orphaned p (disconnect w).
Proof.
  intros Ho. pose proof (orphaned_lt p w Ho) as Hlt.
  assert (Hs : orphaned p
                 (settle (length (promises w)) Resolved
                    (setPromises
                       (fun l => l ++ [{| state := Pending; chained := false |}]) w))).
  { apply orphaned_settle; [lia|].
    apply (orphaned_intro p w); [| |exact Ho].
    - unfold promiseState. cbn. now rewrite lookup_app_l.
    - cbn. apply Ho. }
  destruct (client (this w)) as [c|] eqn:Hc;
    [destruct (isConnected (this w)) eqn:Hi|].
  - destruct (clients w !! c) as [cl|] eqn:Hcl.
    + destruct (disconnect_connected w c cl Hc Hcl Hi) as (Ecl & Epr & _).
      apply (orphaned_intro p w); [| |exact Ho].
      * unfold promiseState. rewrite Epr. now rewrite lookup_app_l.
      * rewrite Ecl. apply Forall_insert; [apply Ho|].
        cbn. split; [apply (orphaned_client p w c cl Ho Hcl)|].
        intros E. injection E as E. lia.
    + unfold disconnect. cbn [this setPromises client isConnected].
      rewrite Hc, Hi. apply (orphaned_intro p w); [| |exact Ho].
      * unfold promiseState. cbn.
        match goal with
        | |- context [promises (unsubscribe ?w1)] =>
            destruct (unsubscribe_frame w1) as (_ & _ & _ & _ & _ & _ & _ & -> & _)
        end.
        cbn. now rewrite lookup_app_l.
      * cbn.
        match goal with
        | |- context [clients (unsubscribe ?w1)] =>
            destruct (unsubscribe_frame w1) as (_ & _ & _ & _ & _ & _ & -> & _)
        end.
        cbn. rewrite Hcl. apply Ho.
  - unfold disconnect. cbn [this setPromises client isConnected].
    rewrite Hc, Hi. exact Hs.
  - unfold disconnect. cbn [this setPromises client isConnected].
    rewrite Hc. exact Hs.
Qed.

Lemma orphaned_unchanged p w w1 :
  promises w1 = promises w -> clients w1 = clients w ->
  orphaned p w -> orphaned p w1.
Proof.
  intros Ep Ec Ho. apply (orphaned_intro p w); [| |exact Ho].
  - unfold promiseState. now rewrite Ep.
  - rewrite Ec. apply Ho.
Qed.

Lemma orphaned_step p w e : orphaned p w -> orphaned p (step w e).
Proof.
  intros Ho. destruct e; cbn [step].
  - now apply orphaned_connect.
  - now apply orphaned_disconnect.
  - unfold onConnect. destruct (clients w !! c) as [cl|] eqn:Hc; [|exact Ho].
    apply orphaned_settle; [apply (orphaned_client p w c cl Ho Hc)|].
    apply (orphaned_unchanged p w); [| |exact Ho]; cbn;
      unfold subscribeToMessages; cbn; now destruct (client (this w)).
  - unfold onStompError. destruct (clients w !! c) as [cl|] eqn:Hc; [|exact Ho].
    apply orphaned_settle; [apply (orphaned_client p w c cl Ho Hc)|].
    now apply (orphaned_unchanged p w).
  - unfold onDisconnectOf.
    destruct (clients w !! c) as [cl|] eqn:Hc; [|exact Ho].
    destruct (onDisconnect cl) as [|q] eqn:Hq.
    + apply (orphaned_unchanged p w); [| |exact Ho];
        unfold autoReconnect; cbn;
        now destruct (reconnectAttempts (this w) <? maxReconnectAttempts).
    + unfold teardown. apply orphaned_settle.
      * intros ->. now apply (orphaned_client p w c cl Ho Hc).
      * now apply (orphaned_unchanged p w).
  - unfold onWebSocketError. destruct (clients w !! c); [|exact Ho].
    now apply (orphaned_unchanged p w).
  - unfold timerFires.
    destruct (timers w !! t) as [tm|]; [|exact Ho].
    destruct (fired tm); [exact Ho|].
    cbn [this setTimers config].
    destruct (config (this w)) as [cfg|].
    + apply orphaned_connect. now apply (orphaned_unchanged p w).
    + now apply (orphaned_unchanged p w).
  - apply (orphaned_unchanged p w); [| |exact Ho]; unfold subscribeResumes;
      (destruct (tasks w !! t) as [task|]; [|reflexivity]);
      (destruct (taskDone task); [reflexivity|]);
      (destruct (waitForStompConnected _ _ _) as [[|]|]; cbn; try reflexivity);
      (destruct (client (this w)); [destruct subscribeThrows|]; reflexivity).
Qed.

Lemma wellFormed_grow w w1 :
  clients w1 = clients w ->
  (length (promises w) <= length (promises w1))%nat ->
  wellFormed w -> wellFormed w1.
Proof.
  unfold wellFormed. intros -> Hle H.
  eapply List.Forall_impl; [|exact H].
  intros cl [H1 H2]. split; [lia|].
  intros q E. specialize (H2 q E). lia.
Qed.

Lemma wellFormed_settle q s w : wellFormed w -> wellFormed (settle q s w).
Proof.
  apply wellFormed_grow.
  - now destruct (settle_frame q s w) as [_ ->].
  - destruct (settle_rest q s w) as (_ & _ & ->). lia.
Qed.

Lemma wellFormed_connect cfg setup chain w :
  wellFormed w -> wellFormed (connect cfg setup chain w).
Proof.
  intros H. unfold connect. destruct setup as [|error].
  - unfold wellFormed. cbn. rewrite length_app. cbn.
    apply Forall_app. split.
    + eapply List.Forall_impl; [|exact H].
      intros cl [H1 H2]. split; [lia|].
      intros q E. specialize (H2 q E). lia.
    + constructor; [|constructor]. cbn. split; [lia|].
      intros q E. discriminate E.
  - apply wellFormed_settle.
    apply (wellFormed_grow w); [reflexivity| |exact H].
    cbn. rewrite length_app. lia.
Qed.

Lemma wellFormed_disconnect w : wellFormed w -> wellFormed (disconnect w).
Proof.
  intros H.
  assert (Hs : wellFormed
                 (settle (length (promises w)) Resolved
                    (setPromises
                       (fun l => l ++ [{| state := Pending; chained := false |}]) w))).
  { apply wellFormed_settle.
    apply (wellFormed_grow w); [reflexivity| |exact H].
    cbn. rewrite length_app. lia. }
  destruct (client (this w)) as [c|] eqn:Hc;
    [destruct (isConnected (this w)) eqn:Hi|].
  - destruct (clients w !! c) as [cl|] eqn:Hcl.
    + destruct (disconnect_connected w c cl Hc Hcl Hi) as (Ecl & Epr & _).
      unfold wellFormed. rewrite Ecl, Epr, length_app. cbn.
      assert (Hcl' : (connectPromise cl < length (promises w))%nat).
      { unfold wellFormed in H. rewrite List.Forall_forall in H.
        apply H, list_elem_of_In. eapply list_elem_of_lookup_2. exact Hcl. }
      apply Forall_insert.
      * eapply List.Forall_impl; [|exact H].
        intros a [H1 H2]. split; [lia|].
        intros q E. specialize (H2 q E). lia.
      * cbn. split; [lia|]. intros q E. injection E as <-. lia.
    + unfold disconnect. cbn [this setPromises client isConnected].
      rewrite Hc, Hi. unfold wellFormed. cbn.
      match goal with
      | |- context [clients (unsubscribe ?w1)] =>
          destruct (unsubscribe_frame w1)
            as (_ & _ & _ & _ & _ & _ & -> & -> & _)
      end.
      cbn. rewrite Hcl, length_app.
      eapply List.Forall_impl; [|exact H].
      intros a [H1 H2]. split; [lia|].
      intros q E. specialize (H2 q E). lia.
  - unfold disconnect. cbn [this setPromises client isConnected].
    rewrite Hc, Hi. exact Hs.
  - unfold disconnect. cbn [this setPromises client isConnected].
    rewrite Hc. exact Hs.
Qed.

Lemma wellFormed_step w e : wellFormed w -> wellFormed (step w e).
Proof.
  intros H. destruct e; cbn [step].
  - now apply wellFormed_connect.
  - now apply wellFormed_disconnect.
  - unfold onConnect. destruct (clients w !! c) as [cl|]; [|exact H].
    apply wellFormed_settle.
    apply (wellFormed_grow w); [| |exact H]; cbn;
      unfold subscribeToMessages; cbn; now destruct (client (this w)).
  - unfold onStompError. destruct (clients w !! c) as [cl|]; [|exact H].
    apply wellFormed_settle. now apply (wellFormed_grow w).
  - unfold onDisconnectOf. destruct (clients w !! c) as [cl|]; [|exact H].
    destruct (onDisconnect cl) as [|q].
    + apply (wellFormed_grow w); [| |exact H];
        unfold autoReconnect; cbn;
        now destruct (reconnectAttempts (this w) <? maxReconnectAttempts).
    + unfold teardown. apply wellFormed_settle.
      now apply (wellFormed_grow w).
  - unfold onWebSocketError. destruct (clients w !! c); [|exact H].
    now apply (wellFormed_grow w).
  - unfold timerFires.
    destruct (timers w !! t) as [tm|]; [|exact H].
    destruct (fired tm); [exact H|].
    cbn [this setTimers config].
    destruct (config (this w)) as [cfg|].
    + apply wellFormed_connect. now apply (wellFormed_grow w).
    + now apply (wellFormed_grow w).
  - apply (wellFormed_grow w); [| |exact H]; unfold subscribeResumes;
      (destruct (tasks w !! t) as [task|]; [|reflexivity]);
      (destruct (taskDone task); [reflexivity|]);
      (destruct (waitForStompConnected _ _ _) as [[|]|]; cbn; try reflexivity);
      (destruct (client (this w)); [destruct subscribeThrows|]; reflexivity).
Qed.

(** The sessions of a run are well formed. *)
Lemma wellFormed_exec tr : wellFormed (exec init tr).
Proof.
  assert (H : forall w, wellFormed w -> wellFormed (exec w tr)).
  { induction tr as [|e tr IH]; intros w Hw; [exact Hw|].
    cbn [exec fold_left]. apply IH. now apply wellFormed_step. }
  apply H. constructor.
Qed.

(** X18: [disconnect()] called twice on a connected session before the
    client has reported the disconnect: the second call takes the
    client's disconnect callback over, so the promise of the first call
    is never settled, whatever happens afterwards, while the report of the
    disconnect resolves the promise of the second. *)
Theorem disconnect_twice_strands_first w c cl :
  wellFormed w ->
  client (this w) = Some c -> clients w !! c = Some cl ->
  isConnected (this w) = true ->
  let p := length (promises w) in
  let w2 := disconnect (disconnect w) in
  promiseState (S p) (onDisconnectOf c w2) = Some Resolved
  /\ forall tr, promiseState p (exec w2 tr) = Some Pending.
Proof.
  intros Hwf Hc Hcl Hi p w2.
  destruct (disconnect_connected w c cl Hc Hcl Hi) as (Ecl & Epr & Eth & _).
  set (w1 := disconnect w) in *.
  set (cl1 := {| clientConfig := clientConfig cl;
                 connectPromise := connectPromise cl;
                 onDisconnect := Teardown p |}) in *.
  assert (Hlt : (c < length (clients w))%nat) by (eapply lookup_lt_Some; eauto).
  assert (Hc1 : client (this w1) = Some c) by (rewrite Eth; exact Hc).
  assert (Hi1 : isConnected (this w1) = true) by (rewrite Eth; exact Hi).
  assert (Hcl1 : clients w1 !! c = Some cl1).
  { rewrite Ecl. now apply list_lookup_insert_eq. }
  destruct (disconnect_connected w1 c cl1 Hc1 Hcl1 Hi1) as (Ecl2 & Epr2 & _).
  fold w2 in Ecl2, Epr2.
  assert (Hlen : length (promises w1) = S p).
  { rewrite Epr, length_app. cbn. unfold p. lia. }
  rewrite Hlen in Ecl2. cbn in Ecl2.
  split.
  - unfold onDisconnectOf. rewrite Ecl2.
    rewrite list_lookup_insert_eq by (rewrite Ecl, length_insert; exact Hlt).
    cbn. unfold teardown. apply settle_pending.
    unfold promiseState. cbn. rewrite Epr2, lookup_app_r by lia.
    now rewrite Hlen, Nat.sub_diag.
  - assert (Ho : orphaned p w2).
    { split.
      - unfold promiseState. rewrite Epr2, Epr.
        rewrite lookup_app_l by (rewrite length_app; cbn; unfold p; lia).
        now rewrite lookup_app_r, Nat.sub_diag.
      - rewrite Ecl2, Ecl, list_insert_insert_eq.
        apply Forall_insert.
        + unfold wellFormed in Hwf. eapply List.Forall_impl; [|exact Hwf].
          intros a [Ha Hq]. fold p in Ha, Hq. split; [lia|].
          intros E. specialize (Hq p E). lia.
        + cbn. split.
          * unfold wellFormed in Hwf. rewrite List.Forall_forall in Hwf.
            destruct (Hwf cl) as [Ha _]; [|fold p in Ha; lia].
            apply list_elem_of_In. eapply list_elem_of_lookup_2. exact Hcl.
          * intros E. injection E as E. lia. }
    intros tr. revert Ho. generalize w2.
    induction tr as [|e tr IH]; intros w0 Ho; [apply Ho|].
    cbn [exec fold_left]. apply IH. now apply orphaned_step.
Qed.

(** A connected session on which [disconnect()] is called twice. *)
Lemma disconnect_twice_strands_first_witness :
  let w := exec init [CallConnect exampleConfig SetupOk; ClientOnConnect 0 0] in
  let w2 := disconnect (disconnect w) in
  wellFormed w
  /\ client (this w) = Some 0%nat
  /\ isConnected (this w) = true
  /\ promiseState 2 (onDisconnectOf 0 w2) = Some Resolved
  /\ promiseState 1 (exec w2 [ClientOnDisconnect 0; ClientOnDisconnect 0])
     = Some Pending.
Proof.
  intros w w2.
  assert (H0 : wellFormed w).
  { unfold wellFormed. cbn. constructor; [|constructor].
    cbn. split; [lia|]. intros t E. discriminate E. }
  assert (H1 : client (this w) = Some 0%nat) by reflexivity.
  assert (H3 : isConnected (this w) = true) by reflexivity.
  destruct (disconnect_twice_strands_first w 0 _ H0 H1 eq_refl H3) as [R S].
  split; [exact H0|]. split; [exact H1|]. split; [exact H3|].
  split; [exact R|apply S].
Defined.

(** *** disconnect on a session that is not connected, and reconnect *)

Lemma disconnect_not_connected w :
  isConnected (this w) = false \/ client (this w) = None ->
  disconnect w
  = setPromises (fun l => l ++ [{| state := Resolved; chained := false |}]) w.
Proof.
  intros H.
  assert (E : settle (length (promises w)) Resolved
                (setPromises
                   (fun l => l ++ [{| state := Pending; chained := false |}]) w)
              = setPromises
                  (fun l => l ++ [{| state := Resolved; chained := false |}]) w).
  { unfold settle. cbn [promises setPromises].
    rewrite lookup_app_r, Nat.sub_diag by lia. cbn.
    unfold setPromises. cbn. f_equal.
    rewrite insert_app_r_alt, Nat.sub_diag by lia. reflexivity. }
  unfold disconnect. cbn [this setPromises client isConnected].
  destruct (client (this w)) as [c|]; [|exact E].
  destruct (isConnected (this w)); [|exact E].
  destruct H as [H|H]; discriminate H.
Qed.

(** X19: [disconnect()] on a session that is not connected (the connection
    has dropped, or there is no client) resolves at once and changes
    nothing else: the configuration stays, the clients keep their
    callbacks and the reconnection timers already set stay armed. *)
Theorem disconnect_when_not_connected w :
  isConnected (this w) = false \/ client (this w) = None ->
  promiseState (length (promises w)) (disconnect w) = Some Resolved
  /\ this (disconnect w) = this w
  /\ clients (disconnect w) = clients w
  /\ timers (disconnect w) = timers w
  /\ log (disconnect w) = log w.
Proof.
  intros H. rewrite (disconnect_not_connected w H).
  unfold promiseState. cbn.
  rewrite lookup_app_r, Nat.sub_diag by lia. repeat split.
Qed.

(** The connection of a session has dropped. *)
Lemma disconnect_when_not_connected_witness :
  let w :=
    exec init [CallConnect exampleConfig SetupOk; ClientOnConnect 0 0;
               ClientOnDisconnect 0] in
  (isConnected (this w) = false \/ client (this w) = None)
  /\ promiseState 1 (disconnect w) = Some Resolved
  /\ config (this (disconnect w)) = Some exampleConfig
  /\ timers (disconnect w) = [{| delay := 5000; fired := false |}].
Proof.
  intros w.
  assert (H : isConnected (this w) = false \/ client (this w) = None)
    by (left; reflexivity).
  destruct (disconnect_when_not_connected w H) as (P & T & _ & M & _).
  split; [exact H|]. split; [exact P|]. split.
  - rewrite T. reflexivity.
  - rewrite M. reflexivity.
Defined.




(** X21: [reconnect()] on a session whose connection has dropped and whose
    configuration is still there: [disconnect] resolves at once, and the
    call of [connect] that follows creates and activates a new client with
    that configuration, whose promise is pending. *)
Theorem reconnect_of_dropped_connects w cfg :
  isConnected (this w) = false -> config (this w) = Some cfg ->
  let p := length (promises w) in
  let w1 := reconnectBegins w in
  let w2 := reconnectResumes SetupOk w1 in
  promiseState p w1 = Some Resolved
  /\ clients w2
     = clients w ++ [{| clientConfig := cfg; connectPromise := S p;
                        onDisconnect := AutoReconnect |}]
  /\ client (this w2) = Some (length (clients w))
  /\ promiseState (S p) w2 = Some Pending
  /\ logSince w1 w2 = [Activate (length (clients w))].
Proof.
  intros Hi Hcfg p w1 w2.
  unfold w2, w1, reconnectBegins, reconnectResumes. rewrite Hcfg.
  rewrite (disconnect_not_connected w (or_introl Hi)).
  cbn [this setPromises config]. rewrite Hcfg.
  unfold connectValue, connect, promiseState, logSince. cbn.
  rewrite !length_app. cbn. fold p.
  replace (p + 1)%nat with (S p) by lia.
  repeat apply conj; try reflexivity.
  - rewrite lookup_app_r, Nat.sub_diag by lia. reflexivity.
  - rewrite lookup_app_r by (rewrite length_app; cbn; lia).
    rewrite length_app. cbn. fold p.
    replace (S p - (p + 1))%nat with 0%nat by lia. reflexivity.
  - apply drop_app_length.
Qed.

(** The connection of a session has dropped; it is made to reconnect. *)
Lemma reconnect_of_dropped_connects_witness :
  let w :=
    exec init [CallConnect exampleConfig SetupOk; ClientOnConnect 0 0;
               ClientOnDisconnect 0] in
  let w2 := reconnectResumes SetupOk (reconnectBegins w) in
  isConnected (this w) = false
  /\ config (this w) = Some exampleConfig
  /\ client (this w2) = Some 1%nat
  /\ promiseState 2 w2 = Some Pending.
Proof.
  intros w w2.
  assert (H1 : isConnected (this w) = false) by reflexivity.
  assert (H2 : config (this w) = Some exampleConfig) by reflexivity.
  destruct (reconnect_of_dropped_connects w exampleConfig H1 H2)
    as (_ & _ & C & P & _).
  split; [exact H1|]. split; [exact H2|]. split; [exact C|exact P].
Defined.

(** *** The wait for the STOMP connection, and the subscription *)

Lemma waitForStompConnected_cons timeoutMs start now connected rest b :
  waitForStompConnected timeoutMs start ((now, connected) :: rest) = Some b
  <-> (connected = true /\ b = true)
      \/ (connected = false /\ timeoutMs < now - start /\ b = false)
      \/ (connected = false /\ now - start <= timeoutMs
          /\ waitForStompConnected timeoutMs start rest = Some b).
Proof.
  cbn [waitForStompConnected]. destruct connected.
  - split; [intros [= <-]; auto|].
    intros [[_ ->]|[(E & _)|(E & _)]]; [reflexivity|discriminate E|discriminate E].
  - destruct (Z.gtb_spec (now - start) timeoutMs) as [Hgt|Hle].
    + split; [intros [= <-]; right; left; repeat split; lia|].
      intros [[E _]|[(_ & _ & ->)|(_ & H & _)]];
        [discriminate E|reflexivity|lia].
    + split; [intros H; right; right; auto|].
      intros [[E _]|[(_ & H & _)|(_ & _ & H)]]; [discriminate E|lia|exact H].
Qed.

(** X22: what the wait reports.  It reports the connection exactly when
    some check finds the client connected, all checks before it having
    found it not connected within the time allowed: also when that check
    itself runs after the time allowed.  It gives up exactly when some
    check finds the client not connected after the time allowed, all
    checks before it having found it not connected within that time. *)
Theorem waitForStompConnected_result timeoutMs start probes b :
  waitForStompConnected timeoutMs start probes = Some b
  <-> exists i now,
        probes !! i = Some (now, b)
        /\ (b = false -> timeoutMs < now - start)
        /\ forall j now' c',
            (j < i)%nat -> probes !! j = Some (now', c') ->
            c' = false /\ now' - start <= timeoutMs.
Proof.
  induction probes as [|[now connected] rest IH].
  - split; [discriminate|]. intros (i & now & H & _). discriminate H.
  - rewrite waitForStompConnected_cons. split.
    + intros [[-> ->]|[(-> & Hgt & ->)|(-> & Hle & H)]].
      * exists 0%nat, now. repeat split; [discriminate|intros; lia|intros; lia].
      * exists 0%nat, now. repeat split; [auto|intros; lia|intros; lia].
      * apply IH in H as (i & now1 & Hi & Hb & Hj).
        exists (S i), now1. split; [exact Hi|]. split; [exact Hb|].
        intros [|j] now' c' Hlt Hl.
        -- cbn in Hl. injection Hl as <- <-. auto.
        -- apply (Hj j); [lia|exact Hl].
    + intros ([|i] & now1 & Hi & Hb & Hj).
      * cbn in Hi. injection Hi as <- <-.
        destruct connected; [left; auto|right; left; auto].
      * destruct (Hj 0%nat now connected) as [-> Hle]; [lia|reflexivity|].
        right. right. repeat split; [exact Hle|].
        apply IH. exists i, now1. split; [exact Hi|]. split; [exact Hb|].
        intros j now' c' Hlt Hl. apply (Hj (S j)); [lia|exact Hl].
Qed.

(** X23: the wait is bounded: when no check runs earlier than a tenth of a
    second after the one before, the fifty-second check at the latest
    settles it, so the subscription is made or given up. *)
Theorem waitForStompConnected_bounded start probes :
  (52 <= length probes)%nat ->
  (forall i now connected,
      probes !! i = Some (now, connected) ->
      start + intervalMs * Z.of_nat i <= now) ->
  is_Some (waitForStompConnected 5000 start probes).
Proof.
  intros Hl Hp. apply (waitForStompConnected_settles start probes 0%nat).
  - lia.
  - lia.
  - exact Hp.
Qed.

(** Fifty-two checks, a tenth of a second apart, that never find the
    client connected. *)
Lemma waitForStompConnected_bounded_witness :
  let probes := List.map (fun i => (1000 + 100 * i, false)) (seqZ 0 52) in
  (52 <= length probes)%nat
  /\ waitForStompConnected 5000 1000 probes = Some false.
Proof.
  intros probes.
  assert (Hl : (52 <= length probes)%nat) by (vm_compute; lia).
  assert (Hp : forall i now connected,
             probes !! i = Some (now, connected) ->
             1000 + intervalMs * Z.of_nat i <= now).
  { intros i now connected H. unfold probes in H.
    change (List.map (fun i => (1000 + 100 * i, false)) (seqZ 0 52))
      with ((fun i => (1000 + 100 * i, false)) <$> seqZ 0 52) in H.
    rewrite list_lookup_fmap in H.
    destruct (seqZ 0 52 !! i) as [z|] eqn:E; [|discriminate].
    cbn in H. injection H as <- <-.
    apply lookup_seqZ in E as [-> _]. unfold intervalMs. lia. }
  split; [exact Hl|].
  destruct (waitForStompConnected_bounded 1000 probes Hl Hp) as [b Hb].
  rewrite Hb. f_equal.
  assert (E : waitForStompConnected 5000 1000 probes = Some false)
    by (vm_compute; reflexivity).
  congruence.
Defined.

Lemma onConnect_task w c cl c0 now :
  clients w !! c = Some cl -> client (this w) = Some c0 ->
  tasks (onConnect c now w)
  = tasks w ++ [{| taskCourseId := courseId (clientConfig cl); taskStart := now;
                   taskDone := false |}]
  /\ client (this (onConnect c now w)) = Some c0.
Proof.
  intros Hc H0. unfold onConnect. rewrite Hc.
  match goal with
  | |- tasks (settle ?q ?s ?w0) = _ /\ _ =>
      destruct (settle_rest q s w0) as (_ & -> & _);
      destruct (settle_frame q s w0) as [-> _]
  end.
  unfold subscribeToMessages. cbn. rewrite H0. cbn. rewrite H0. auto.
Qed.

(** X24: the subscription of a connect: when the wait that the connect
    callback started reports the connection and subscribing does not
    throw, the service is subscribed to the topic of the course of that
    client's configuration, "/topic/courses/<courseId>/messages";
    [unsubscribe()] then cancels exactly that subscription, and a second
    [unsubscribe()] does nothing. *)
Theorem subscribe_then_unsubscribe w c cl c0 now probes :
  clients w !! c = Some cl -> client (this w) = Some c0 ->
  waitForStompConnected 5000 now probes = Some true ->
  let w1 := onConnect c now w in
  let w2 := subscribeResumes (length (tasks w)) probes false w1 in
  let destination :=
    lit "/topic/courses/" ++ courseId (clientConfig cl) ++ lit "/messages" in
  subscription (this w2) = Some destination
  /\ logSince w1 w2 = [Subscribe c0 destination]
  /\ subscription (this (unsubscribe w2)) = None
  /\ logSince w2 (unsubscribe w2) = [Unsubscribe destination]
  /\ unsubscribe (unsubscribe w2) = unsubscribe w2.
Proof.
  intros Hc H0 Hw w1 w2 destination.
  destruct (onConnect_task w c cl c0 now Hc H0) as [Et Ec]. fold w1 in Et, Ec.
  assert (E2 : w2 = setThis (setSubscription (Some destination))
                      (emit (Subscribe c0 destination)
                         (setTasks
                            (fun l => <[length (tasks w) :=
                                          {| taskCourseId := courseId (clientConfig cl);
                                             taskStart := now; taskDone := true |}]> l)
                            w1))).
  { unfold w2, subscribeResumes. rewrite Et.
    rewrite lookup_app_r, Nat.sub_diag by lia. cbn. rewrite Hw. cbn.
    rewrite Ec. reflexivity. }
  rewrite E2. unfold unsubscribe, logSince. cbn.
  repeat apply conj; try reflexivity.
  - apply drop_app_length.
  - apply drop_app_length.
Qed.

(** The first connect of a session, found connected at the first check. *)
Lemma subscribe_then_unsubscribe_witness :
  let w := connect exampleConfig SetupOk false init in
  let w2 := subscribeResumes 0 [(1000, true)] false (onConnect 0 1000 w) in
  client (this w) = Some 0%nat
  /\ waitForStompConnected 5000 1000 [(1000, true)] = Some true
  /\ subscription (this w2) = Some (lit "/topic/courses/C1/messages")
  /\ subscription (this (unsubscribe w2)) = None.
Proof.
  intros w w2.
  assert (H1 : client (this w) = Some 0%nat) by reflexivity.
  assert (H2 : waitForStompConnected 5000 1000 [(1000, true)] = Some true)
    by reflexivity.
  destruct (subscribe_then_unsubscribe w 0 _ 0%nat 1000 [(1000, true)]
              eq_refl H1 H2) as (S1 & _ & S2 & _).
  split; [exact H1|]. split; [exact H2|]. split; [exact S1|exact S2].
Defined.

End WebSocketServiceExtras.
